(** * merge_templates.py: merging CloudFormation template fragments

    A shallow embedding of [src/merge_templates.py].  The program loads a
    base YAML document and a list of fragment documents, merges the four
    sections [Parameters], [Conditions], [Resources] and [Outputs] of every
    fragment into a shallow copy of the base, and dumps the result.

    Layout of the development:
    - Python values and ordered dictionaries;
    - the part of PyYAML the program relies on (representation nodes,
      [SafeLoader] construction, [SafeDumper] representation);
    - the program itself, over a store of mutable section dictionaries;
    - the same merge on trees, which the store-based program refines;
    - the vocabulary of the specification and sample documents;
    - lemmas on dictionaries, on the store and on the two loops;
    - the properties of the specification, C1 to C10. *)

From Stdlib Require Import ZArith String Ascii DecimalString DecimalPos DecimalZ Lia.
From stdpp Require Import base list strings.

Local Open Scope string_scope.
Local Open Scope list_scope.

(** ** Python values *)

(** The objects [yaml.load] can build with [CfnLoader], restricted to
    [None], [bool], [int], [str], [list], [dict] with [str] keys, and
    instances of the class [Tagged].  Floats, timestamps, binary data and
    sets are outside the model. *)
#[local] Unset Elimination Schemes.
Inductive value : Type :=
| VNone
| VBool (b : bool)
| VInt (z : Z)
| VStr (s : string)
| VList (items : list value)
| VDict (entries : list (string * value))
| VTagged (tag : string) (payload : value).
#[local] Set Elimination Schemes.

(** A Python [dict] keeps its keys in insertion order and holds every key
    once: an association list, read from the front. *)
Definition pydict (V : Type) : Type := list (string * V).

Section Dict.
Context {V : Type}.

(** [d.get(k)], [None] when [k not in d]. *)
Fixpoint dict_get (k : string) (d : pydict V) : option V :=
  match d with
  | [] => None
  | (k', v) :: rest => if String.eqb k k' then Some v else dict_get k rest
  end.

(** [k in d]. *)
Definition dict_mem (k : string) (d : pydict V) : bool :=
  match dict_get k d with Some _ => true | None => false end.

(** [d[k] = v]: an existing key keeps its position, a new key goes last. *)
Fixpoint dict_set (k : string) (v : V) (d : pydict V) : pydict V :=
  match d with
  | [] => [(k, v)]
  | (k', v') :: rest =>
      if String.eqb k k' then (k', v) :: rest
      else (k', v') :: dict_set k v rest
  end.

(** [d.keys()], in order. *)
Definition dict_keys (d : pydict V) : list string := map fst d.
End Dict.

(** Truthiness, as the [or] of [_load_yaml] tests it.  [Tagged] defines
    neither [__bool__] nor [__len__], so its instances are true. *)
Definition truthy (v : value) : bool :=
  match v with
  | VNone => false
  | VBool b => b
  | VInt z => negb (Z.eqb z 0)
  | VStr s => negb (String.eqb s "")
  | VList l => match l with [] => false | _ => true end
  | VDict d => match d with [] => false | _ => true end
  | VTagged _ _ => true
  end.

(** [isinstance(v, dict)]. *)
Definition is_dict (v : value) : bool :=
  match v with VDict _ => true | _ => false end.

(** Decimal text of an integer, [str(z)]. *)
Definition str_of_Z (z : Z) : string := NilZero.string_of_int (Z.to_int z).

(** [str(v)] for the payloads [_represent_tagged] passes to it, which are
    neither [dict] nor [list].  The default [repr] of a [Tagged] instance
    embeds its address; the model fixes one text for it, and the texts of
    the two container cases are never used by the program. *)
Definition py_str (v : value) : string :=
  match v with
  | VNone => "None"
  | VBool true => "True"
  | VBool false => "False"
  | VInt z => str_of_Z z
  | VStr s => s
  | VList _ => "[...]"
  | VDict _ => "{...}"
  | VTagged _ _ => "<Tagged object>"
  end.

(** ** Errors *)

(** The three [ValueError]s of the program, named as the specification
    names them, and the other exceptions a run can end with. *)
Inductive error : Type :=
| LoadError (path : string)
| SectionTypeError (path section : string)
| DuplicateKeyError (section key path : string)
| TypeError
| KeyError
| ConstructorError
| FileNotFoundError (path : string)
| Unmodelled.

(** The text of the exception, for the three [ValueError]s. *)
Definition message (e : error) : string :=
  match e with
  | LoadError path => path ++ " must contain a YAML mapping"
  | SectionTypeError path section =>
      path ++ " section " ++ section ++ " must be a mapping"
  | DuplicateKeyError section key path =>
      "Duplicate " ++ section ++ " key " ++ key ++ " in " ++ path
  | TypeError => "TypeError"
  | KeyError => "KeyError"
  | ConstructorError => "ConstructorError"
  | FileNotFoundError path => "No such file or directory: " ++ path
  | Unmodelled => "outside the model"
  end.

Inductive result (A : Type) : Type :=
| Ok (a : A)
| Err (e : error).
Arguments Ok {A} a.
Arguments Err {A} e.

(** ** The YAML library *)

(** PyYAML's representation graph ([yaml.nodes]), after tag resolution: the
    form in which a document reaches the constructor and leaves the
    representer.  Scanning, parsing and emitting text are the library's and
    are not modelled.  Anchors and aliases are outside the nodes, so a
    document is a tree; the one thing an alias changes for the program, a
    dictionary of the base held under two keys, is a matter of the store
    (see [merge_loaded]). *)
#[local] Unset Elimination Schemes.
Inductive node : Type :=
| ScalarNode (tag : string) (value : string)
| SequenceNode (tag : string) (value : list node)
| MappingNode (tag : string) (value : list (node * node)).
#[local] Set Elimination Schemes.

Definition tag_null : string := "tag:yaml.org,2002:null".
Definition tag_bool : string := "tag:yaml.org,2002:bool".
Definition tag_int : string := "tag:yaml.org,2002:int".
Definition tag_str : string := "tag:yaml.org,2002:str".
Definition tag_seq : string := "tag:yaml.org,2002:seq".
Definition tag_map : string := "tag:yaml.org,2002:map".

(** The tags [SafeConstructor] knows.  [TOther] stands for those whose
    values are outside the model: floats, binary data, timestamps, ordered
    maps, pairs, sets, and the merge and value keys of mappings. *)
Inductive std_tag : Type :=
| TNull | TBool | TInt | TStr | TSeq | TMap | TOther.

Definition std_tag_of (tag : string) : option std_tag :=
  if String.eqb tag tag_null then Some TNull
  else if String.eqb tag tag_bool then Some TBool
  else if String.eqb tag tag_int then Some TInt
  else if String.eqb tag tag_str then Some TStr
  else if String.eqb tag tag_seq then Some TSeq
  else if String.eqb tag tag_map then Some TMap
  else if String.eqb tag "tag:yaml.org,2002:float" then Some TOther
  else if String.eqb tag "tag:yaml.org,2002:binary" then Some TOther
  else if String.eqb tag "tag:yaml.org,2002:timestamp" then Some TOther
  else if String.eqb tag "tag:yaml.org,2002:omap" then Some TOther
  else if String.eqb tag "tag:yaml.org,2002:pairs" then Some TOther
  else if String.eqb tag "tag:yaml.org,2002:set" then Some TOther
  else if String.eqb tag "tag:yaml.org,2002:merge" then Some TOther
  else if String.eqb tag "tag:yaml.org,2002:value" then Some TOther
  else None.

(** [tag.startswith("!")], giving [tag[1:]]: the suffix the multi
    constructor registered for the prefix ["!"] receives. *)
Definition custom_suffix (tag : string) : option string :=
  match tag with
  | String c rest => if Ascii.eqb c "!" then Some rest else None
  | EmptyString => None
  end.

Definition lower_ascii (c : ascii) : ascii :=
  let n := nat_of_ascii c in
  if (65 <=? n)%nat && (n <=? 90)%nat then ascii_of_nat (n + 32) else c.

Fixpoint lower (s : string) : string :=
  match s with
  | EmptyString => EmptyString
  | String c rest => String (lower_ascii c) (lower rest)
  end.

(** [SafeConstructor.bool_values[text.lower()]]. *)
Definition construct_yaml_bool (text : string) : result value :=
  let t := lower text in
  if String.eqb t "yes" || String.eqb t "true" || String.eqb t "on"
  then Ok (VBool true)
  else if String.eqb t "no" || String.eqb t "false" || String.eqb t "off"
  then Ok (VBool false)
  else Err KeyError.

(** [SafeConstructor.construct_yaml_int], for the canonical decimal
    spelling, the one the representer writes.  The other spellings YAML
    allows (binary, octal, hexadecimal, sexagesimal, underscores, a leading
    plus sign) are outside the model. *)
Definition construct_yaml_int (text : string) : result value :=
  match NilZero.int_of_string text with
  | Some d =>
      let z := Z.of_int d in
      if String.eqb (str_of_Z z) text then Ok (VInt z) else Err Unmodelled
  | None => Err Unmodelled
  end.

Section Constructor.
(** [loader.construct_object], the recursive entry point. *)
Variable construct_object : node -> result value.

(** [BaseConstructor.construct_sequence]. *)
Fixpoint construct_sequence (items : list node) : result (list value) :=
  match items with
  | [] => Ok []
  | n :: rest =>
      match construct_object n with
      | Err e => Err e
      | Ok v =>
          match construct_sequence rest with
          | Err e => Err e
          | Ok vs => Ok (v :: vs)
          end
      end
  end.

(** [BaseConstructor.construct_mapping]: for every pair the key is built
    and checked to be hashable, then the value is built and stored under
    the key.  Merge keys ([<<]) carry a tag of their own and are outside
    the model, and so are hashable keys that are not [str]. *)
Fixpoint construct_mapping (mapping : pydict value)
    (pairs : list (node * node)) : result (pydict value) :=
  match pairs with
  | [] => Ok mapping
  | (key_node, value_node) :: rest =>
      match construct_object key_node with
      | Err e => Err e
      | Ok (VStr key) =>
          match construct_object value_node with
          | Err e => Err e
          | Ok v => construct_mapping (dict_set key v mapping) rest
          end
      | Ok (VList _) | Ok (VDict _) => Err ConstructorError
      | Ok _ => Err Unmodelled
      end
  end.

(** [_construct_tagged(loader, tag_suffix, node)]. *)
Definition _construct_tagged (tag_suffix : string) (n : node)
    : result value :=
  let tag := ("!" ++ tag_suffix)%string in
  match n with
  | ScalarNode _ text => Ok (VTagged tag (VStr text))
  | SequenceNode _ items =>
      match construct_sequence items with
      | Err e => Err e
      | Ok vs => Ok (VTagged tag (VList vs))
      end
  | MappingNode _ pairs =>
      match construct_mapping [] pairs with
      | Err e => Err e
      | Ok d => Ok (VTagged tag (VDict d))
      end
  end.

(** The constructors of [SafeConstructor] for the standard tags; each
    checks the kind of node it is given. *)
Definition construct_standard (t : std_tag) (n : node) : result value :=
  match t, n with
  | TNull, ScalarNode _ _ => Ok VNone
  | TBool, ScalarNode _ text => construct_yaml_bool text
  | TInt, ScalarNode _ text => construct_yaml_int text
  | TStr, ScalarNode _ text => Ok (VStr text)
  | TSeq, SequenceNode _ items =>
      match construct_sequence items with
      | Err e => Err e
      | Ok vs => Ok (VList vs)
      end
  | TMap, MappingNode _ pairs =>
      match construct_mapping [] pairs with
      | Err e => Err e
      | Ok d => Ok (VDict d)
      end
  | TOther, _ => Err Unmodelled
  | _, _ => Err ConstructorError
  end.
End Constructor.

Definition node_tag (n : node) : string :=
  match n with
  | ScalarNode tag _ | SequenceNode tag _ | MappingNode tag _ => tag
  end.

(** [BaseConstructor.construct_object] for [CfnLoader]: a constructor
    registered for the exact tag wins, then the multi constructor
    [_construct_tagged] registered for the prefix ["!"], and any other tag
    is refused ([construct_undefined]). *)
Fixpoint construct_object (n : node) : result value :=
  match std_tag_of (node_tag n) with
  | Some t => construct_standard construct_object t n
  | None =>
      match custom_suffix (node_tag n) with
      | Some tag_suffix => _construct_tagged construct_object tag_suffix n
      | None => Err ConstructorError
      end
  end.

(** [yaml.load(stream, Loader=CfnLoader)] on a stream holding at most one
    document: [None] for the empty stream, the constructed root otherwise. *)
Definition yaml_load (stream : option node) : result value :=
  match stream with
  | None => Ok VNone
  | Some root => construct_object root
  end.

(** Insertion of a pair into a list sorted by key, and the sort it gives:
    [sorted(mapping.items())] for a mapping with [str] keys. *)
Fixpoint insert_sorted {V} (kv : string * V) (l : pydict V) : pydict V :=
  match l with
  | [] => [kv]
  | kv' :: rest =>
      if String.leb (fst kv) (fst kv') then kv :: l
      else kv' :: insert_sorted kv rest
  end.

Definition sorted_items {V} (d : pydict V) : pydict V :=
  fold_right insert_sorted [] d.

Definition represent_str (s : string) : node := ScalarNode tag_str s.

Section Representer.
(** The dumper's [sort_keys] option and its [represent_data]. *)
Variable sort_keys : bool.
Variable represent_data : value -> node.

(** [BaseRepresenter.represent_sequence]. *)
Definition represent_sequence (tag : string) (sequence : list value)
    : node :=
  SequenceNode tag (map represent_data sequence).

(** [BaseRepresenter.represent_mapping]: the items are sorted when
    [sort_keys] is set and kept in the mapping's order otherwise.  The
    keys of a mapping differ, so the sort looks at keys only; the model
    represents the values first and sorts afterwards, which gives the
    same node and keeps [represent_data] structural. *)
Definition represent_mapping (tag : string) (mapping : pydict value)
    : node :=
  let items := map (fun kv => (fst kv, represent_data (snd kv))) mapping in
  let items := if sort_keys then sorted_items items else items in
  MappingNode tag (map (fun kn => (represent_str (fst kn), snd kn)) items).

(** [_represent_tagged(dumper, data)], on [data.tag] and [data.value]. *)
Definition _represent_tagged (tag : string) (payload : value) : node :=
  match payload with
  | VDict d => represent_mapping tag d
  | VList l => represent_sequence tag l
  | _ => ScalarNode tag (py_str payload)
  end.
End Representer.

(** [SafeRepresenter.represent_data] for [CfnDumper], by the type of the
    object. *)
Fixpoint represent_data (sort_keys : bool) (v : value) : node :=
  match v with
  | VNone => ScalarNode tag_null "null"
  | VBool b => ScalarNode tag_bool (if b then "true" else "false")
  | VInt z => ScalarNode tag_int (str_of_Z z)
  | VStr s => represent_str s
  | VList l => represent_sequence (represent_data sort_keys) tag_seq l
  | VDict d =>
      represent_mapping sort_keys (represent_data sort_keys) tag_map d
  | VTagged tag payload =>
      _represent_tagged sort_keys (represent_data sort_keys) tag payload
  end.

(** ** The program *)

(** The files a run can see: the document of each path, [None] for a file
    without a document. *)
Definition filesystem : Type := pydict (option node).

(** [_load_yaml(path)]. *)
Definition _load_yaml (fs : filesystem) (path : string)
    : result (pydict value) :=
  match dict_get path fs with
  | None => Err (FileNotFoundError path)
  | Some stream =>
      match yaml_load stream with
      | Err e => Err e
      | Ok loaded =>
          let data := if truthy loaded then loaded else VDict [] in
          match data with
          | VDict d => Ok d
          | _ => Err (LoadError path)
          end
      end
  end.

(** *** The store *)

(** [merged = dict(base)] copies the root dictionary only: the values of
    [base] and [merged] are the same objects, and [_merge_section] assigns
    into those that are dictionaries.  A top-level value is therefore either
    a reference to a dictionary object in the store or a plain value, which
    the program cannot change.  What an object holds and what a plain value
    is are trees: the program never assigns below the items of a section,
    and a document in which an alias from inside a value refers to a
    dictionary under a top-level key is outside the model. *)
Definition loc : Type := nat.

Inductive entry : Type :=
| DictRef (l : loc)
| Plain (v : value).

Abbreviation store := (list (list (string * value))).

Definition store_get (h : store) (l : loc) : pydict value :=
  default [] (h !! l).

(** The root dictionary as Python holds it when the document has no anchor
    and alias: every dictionary among its values becomes an object of the
    store, an object of its own.  A document that gives two keys an anchor
    and its alias loads with one object under both; such a root is not the
    image of a tree, and [merge_loaded] below takes it as it is. *)
Fixpoint alloc_document (d : pydict value) (h : store)
    : pydict entry * store :=
  match d with
  | [] => ([], h)
  | (k, VDict items) :: rest =>
      let (rest', h') := alloc_document rest (h ++ [items]) in
      ((k, DictRef (length h)) :: rest', h')
  | (k, v) :: rest =>
      let (rest', h') := alloc_document rest h in
      ((k, Plain v) :: rest', h')
  end.

(** What a reader of the root dictionary sees in a given store. *)
Definition deref (h : store) (e : entry) : value :=
  match e with
  | DictRef l => VDict (store_get h l)
  | Plain v => v
  end.

Definition view (h : store) (d : pydict entry) : pydict value :=
  map (fun kv => (fst kv, deref h (snd kv))) d.

(** Computations on the store that may raise; the store an exception leaves
    behind is kept. *)
Definition M (A : Type) : Type := store -> result A * store.

Definition ret {A} (a : A) : M A := fun h => (Ok a, h).
Definition raise {A} (e : error) : M A := fun h => (Err e, h).
Definition bind {A B} (m : M A) (f : A -> M B) : M B :=
  fun h =>
    match m h with
    | (Ok a, h') => f a h'
    | (Err e, h') => (Err e, h')
    end.

Notation "x <- m ;; k" := (bind m (fun x => k))
  (at level 100, m at next level, right associativity).

(** [needle in haystack] for a [str] needle.  On a [str] it is the
    substring test, on a [list] the comparison with every element; the
    other values of the model are not containers. *)
Fixpoint is_substring (needle haystack : string) : bool :=
  String.prefix needle haystack ||
  match haystack with
  | EmptyString => false
  | String _ rest => is_substring needle rest
  end.

Definition py_contains (needle : string) (haystack : value) : result bool :=
  match haystack with
  | VStr s => Ok (is_substring needle s)
  | VList l =>
      Ok (existsb (fun x => match x with
                            | VStr s => String.eqb s needle
                            | _ => false
                            end) l)
  | VDict d => Ok (dict_mem needle d)
  | _ => Err TypeError
  end.

(** The loop of [_merge_section] over [value.items()].  [dest[section]] is
    read again at every turn.  When it is a dictionary object the item is
    stored in that object; a plain value (never a dictionary, see
    [plain_ok]) either raises on the [in] test or, being a [str] or a
    [list], refuses the assignment of a [str] key. *)
Fixpoint insert_items (dest : pydict entry) (section path : string)
    (items : pydict value) : M unit :=
  match items with
  | [] => ret tt
  | (key, item) :: rest =>
      match dict_get section dest with
      | None => raise KeyError
      | Some (DictRef l) =>
          fun h =>
            if dict_mem key (store_get h l)
            then (Err (DuplicateKeyError section key path), h)
            else insert_items dest section path rest
                   (<[l := dict_set key item (store_get h l)]> h)
      | Some (Plain v) =>
          match py_contains key v with
          | Err e => raise e
          | Ok true => raise (DuplicateKeyError section key path)
          | Ok false => raise TypeError
          end
      end
  end.

(** [dest.setdefault(section, {})].  The fresh dictionary is an object of
    the store when it is kept; when the key is present it is garbage and
    the model does not allocate it. *)
Definition setdefault_dict (section : string) (dest : pydict entry)
    : M (pydict entry) :=
  fun h =>
    if dict_mem section dest then (Ok dest, h)
    else (Ok (dict_set section (DictRef (length h)) dest), h ++ [[]]).

(** [_merge_section(dest, src, section, path)]; the root dictionary [dest]
    is threaded through, since [setdefault] may add a key to it. *)
Definition _merge_section (dest : pydict entry) (src : pydict value)
    (section path : string) : M (pydict entry) :=
  match dict_get section src with
  | None => ret dest
  | Some (VDict items) =>
      dest' <- setdefault_dict section dest ;;
      _ <- insert_items dest' section path items ;;
      ret dest'
  | Some _ => raise (SectionTypeError path section)
  end.

Definition SECTIONS : list string :=
  ["Parameters"; "Conditions"; "Resources"; "Outputs"].

(** The inner loop of [merge_templates], over the section names. *)
Fixpoint merge_sections (merged : pydict entry) (data : pydict value)
    (fragment : string) (sections : list string) : M (pydict entry) :=
  match sections with
  | [] => ret merged
  | section :: rest =>
      merged' <- _merge_section merged data section fragment ;;
      merge_sections merged' data fragment rest
  end.

(** The outer loop of [merge_templates]: a fragment is loaded when its turn
    comes. *)
Fixpoint merge_fragments (fs : filesystem) (merged : pydict entry)
    (fragment_paths : list string) : M (pydict entry) :=
  match fragment_paths with
  | [] => ret merged
  | fragment :: rest =>
      match _load_yaml fs fragment with
      | Err e => raise e
      | Ok data =>
          merged' <- merge_sections merged data fragment SECTIONS ;;
          merge_fragments fs merged' rest
      end
  end.

(** [yaml.dump(merged, handle, Dumper=CfnDumper, sort_keys=False)]: the
    document written. *)
Definition yaml_dump (sort_keys : bool) (data : value) : option node :=
  Some (represent_data sort_keys data).

(** What a run leaves: how it ended, the files, and the document handed to
    [yaml.dump], if any. *)
Record run : Type := {
  outcome : result unit;
  files : filesystem;
  dumped : option value
}.

(** [merge_templates(base_path, fragment_paths, out_path)].  The base is
    loaded and its root dictionary copied; the objects under its keys are
    shared by [base] and [merged].  Opening [out_path] for writing is taken
    to succeed. *)
Definition merge_templates (fs : filesystem) (base_path : string)
    (fragment_paths : list string) (out_path : string) : run :=
  match _load_yaml fs base_path with
  | Err e => {| outcome := Err e; files := fs; dumped := None |}
  | Ok base_tree =>
      let (base, h) := alloc_document base_tree [] in
      let merged := base in
      match merge_fragments fs merged fragment_paths h with
      | (Err e, _) => {| outcome := Err e; files := fs; dumped := None |}
      | (Ok merged', h') =>
          let document := VDict (view h' merged') in
          {| outcome := Ok tt;
             files := dict_set out_path (yaml_dump false document) fs;
             dumped := Some document |}
      end
  end.

(** [merge_templates] from [merged = dict(base)] on (lines 71 to 79), for
    the root dictionary [base] that [_load_yaml(base_path)] returned, given
    with the store [h] of the dictionary objects it refers to.  Nothing is
    asked of [base]: two of its keys may hold one object, as they do when
    the document gives one of them an anchor and the other its alias.  The
    copy [dict(base)] has the keys of [base] and the same objects. *)
Definition merge_loaded (fs : filesystem) (base : pydict entry) (h : store)
    (fragment_paths : list string) (out_path : string) : run :=
  let merged := base in
  match merge_fragments fs merged fragment_paths h with
  | (Err e, _) => {| outcome := Err e; files := fs; dumped := None |}
  | (Ok merged', h') =>
      let document := VDict (view h' merged') in
      {| outcome := Ok tt;
         files := dict_set out_path (yaml_dump false document) fs;
         dumped := Some document |}
  end.


(** ** The merge on trees *)

(** The same merge on documents taken as trees, as the dumper sees them:
    what the program computes when no two top-level values are one object.
    The store-based program refines it ([merge_fragments_refines]). *)

(** [d.setdefault(k, v)] on a tree. *)
Definition dict_setdefault {V} (k : string) (v : V) (d : pydict V)
    : pydict V :=
  if dict_mem k d then d else dict_set k v d.

Fixpoint tree_insert_items (dest : pydict value) (section path : string)
    (items : pydict value) : result (pydict value) :=
  match items with
  | [] => Ok dest
  | (key, item) :: rest =>
      match dict_get section dest with
      | None => Err KeyError
      | Some (VDict d) =>
          if dict_mem key d
          then Err (DuplicateKeyError section key path)
          else tree_insert_items
                 (dict_set section (VDict (dict_set key item d)) dest)
                 section path rest
      | Some v =>
          match py_contains key v with
          | Err e => Err e
          | Ok true => Err (DuplicateKeyError section key path)
          | Ok false => Err TypeError
          end
      end
  end.

Definition tree_merge_section (dest src : pydict value)
    (section path : string) : result (pydict value) :=
  match dict_get section src with
  | None => Ok dest
  | Some (VDict items) =>
      tree_insert_items (dict_setdefault section (VDict []) dest)
        section path items
  | Some _ => Err (SectionTypeError path section)
  end.

Fixpoint tree_merge_sections (merged data : pydict value)
    (fragment : string) (sections : list string)
    : result (pydict value) :=
  match sections with
  | [] => Ok merged
  | section :: rest =>
      match tree_merge_section merged data section fragment with
      | Err e => Err e
      | Ok merged' => tree_merge_sections merged' data fragment rest
      end
  end.

Fixpoint tree_merge_fragments (fs : filesystem) (merged : pydict value)
    (fragment_paths : list string) : result (pydict value) :=
  match fragment_paths with
  | [] => Ok merged
  | fragment :: rest =>
      match _load_yaml fs fragment with
      | Err e => Err e
      | Ok data =>
          match tree_merge_sections merged data fragment SECTIONS with
          | Err e => Err e
          | Ok merged' => tree_merge_fragments fs merged' rest
          end
      end
  end.

(** *** Stores that a root dictionary fits *)

(** The locations a root dictionary refers to. *)
Definition entry_locs (e : entry) : list loc :=
  match e with DictRef l => [l] | Plain _ => [] end.

Definition locs (d : pydict entry) : list loc :=
  flat_map (fun kv => entry_locs (snd kv)) d.

(** A plain entry never holds a dictionary: dictionaries are objects. *)
Definition plain_ok (e : entry) : Prop :=
  match e with Plain (VDict _) => False | _ => True end.

(** No object is shared between two keys, every reference is allocated. *)
Record store_wf (h : store) (d : pydict entry) : Prop := {
  wf_nodup : NoDup (locs d);
  wf_bound : forall l, l ∈ locs d -> l < length h;
  wf_plain : Forall (fun kv => plain_ok (snd kv)) d
}.

(** The result of a store computation against the result on trees: the two
    end alike, and a normal end leaves a store the new root dictionary fits
    and that shows the tree result. *)
Definition refines (r : result (pydict entry) * store)
    (t : result (pydict value)) : Prop :=
  match r with
  | (Ok d, h) => store_wf h d ∧ t = Ok (view h d)
  | (Err e, _) => t = Err e
  end.



(** ** Vocabulary of the specification *)

(** The two ways a run ends: with an exception, the files untouched and
    nothing dumped, or with the merged document dumped to [out_path]. *)
Definition failed (e : error) (fs : filesystem) : run :=
  {| outcome := Err e; files := fs; dumped := None |}.

Definition succeeded (doc : pydict value) (fs : filesystem)
    (out_path : string) : run :=
  {| outcome := Ok tt;
     files := dict_set out_path (yaml_dump false (VDict doc)) fs;
     dumped := Some (VDict doc) |}.

(** The items of a section of a document; none when the section is absent
    or is not a mapping. *)
Definition section_items (doc : pydict value) (section : string)
    : pydict value :=
  match dict_get section doc with
  | Some (VDict items) => items
  | _ => []
  end.

Definition item_names (doc : pydict value) (section : string)
    : list string :=
  dict_keys (section_items doc section).

(** A section of a document is absent or a mapping. *)
Definition section_valid (doc : pydict value) (section : string) : Prop :=
  match dict_get section doc with
  | None | Some (VDict _) => True
  | Some _ => False
  end.

(** Every section the document has is a mapping. *)
Definition valid_sections (doc : pydict value) : bool :=
  forallb (fun s => match dict_get s doc with
                    | None | Some (VDict _) => true
                    | Some _ => false
                    end) SECTIONS.

(** The documents of a list of paths, when each of them loads. *)
Fixpoint load_all (fs : filesystem) (paths : list string)
    : result (list (pydict value)) :=
  match paths with
  | [] => Ok []
  | p :: rest =>
      match _load_yaml fs p with
      | Err e => Err e
      | Ok doc =>
          match load_all fs rest with
          | Err e => Err e
          | Ok docs => Ok (doc :: docs)
          end
      end
  end.

(** The items all the documents of a list give to a section, in order. *)
Definition all_items (docs : list (pydict value)) (section : string)
    : pydict value :=
  flat_map (fun doc => section_items doc section) docs.

(** No name of [l1] is in [l2]; no two lists of [ls] share a name. *)
Definition disjoint_names (l1 l2 : list string) : bool :=
  forallb (fun k => negb (existsb (String.eqb k) l2)) l1.

Fixpoint pairwise_disjoint (ls : list (list string)) : bool :=
  match ls with
  | [] => true
  | l :: rest => forallb (disjoint_names l) rest && pairwise_disjoint rest
  end.

(** The item names of the documents are pairwise disjoint in every
    section. *)
Definition disjoint_sources (docs : list (pydict value)) : bool :=
  forallb (fun s => pairwise_disjoint (map (fun doc => item_names doc s) docs))
          SECTIONS.

(** The first item name of [items], in order, that [d] or an earlier item
    already holds: the key at which the loop of [_merge_section] raises. *)
Fixpoint first_duplicate (d items : pydict value) : option string :=
  match items with
  | [] => None
  | (k, v) :: rest =>
      if dict_mem k d then Some k else first_duplicate (dict_set k v d) rest
  end.

(** The source that defined a name first, among the base and the
    fragments already merged. *)
Definition defined_earlier (fs : filesystem) (base : pydict value)
    (pre : list string) (s X : string) : Prop :=
  X ∈ item_names base s ∨
  ∃ p' doc', p' ∈ pre ∧ _load_yaml fs p' = Ok doc' ∧ X ∈ item_names doc' s.


(** Two documents hold the same thing under each of the four section
    names; they may differ in their other keys. *)
Definition same_sections (doc doc' : pydict value) : Prop :=
  Forall (fun s => dict_get s doc' = dict_get s doc) SECTIONS.

(** The values the constructor builds: the keys of a dictionary differ, a
    [Tagged] carries a tag that starts with ["!"] and a payload that is a
    [str], a [list] or a [dict]. *)
Definition tagged_payload (v : value) : Prop :=
  match v with
  | VStr _ | VList _ | VDict _ => True
  | _ => False
  end.

#[local] Unset Elimination Schemes.
Inductive loaded : value -> Prop :=
| loaded_none : loaded VNone
| loaded_bool b : loaded (VBool b)
| loaded_int z : loaded (VInt z)
| loaded_str s : loaded (VStr s)
| loaded_list l : Forall loaded l -> loaded (VList l)
| loaded_dict d :
    NoDup (dict_keys d) -> Forall (fun kv => loaded (snd kv)) d ->
    loaded (VDict d)
| loaded_tagged tag_suffix payload :
    tagged_payload payload -> loaded payload ->
    loaded (VTagged (String "!" tag_suffix) payload).
#[local] Set Elimination Schemes.

(** A place in a value: under a key of a dictionary, at an index of a
    list, or in the payload of a [Tagged]. *)
Inductive step : Type :=
| Key (k : string)
| Index (i : nat)
| Payload.

Fixpoint value_at (path : list step) (v : value) : option value :=
  match path, v with
  | [], _ => Some v
  | Key k :: rest, VDict d =>
      match dict_get k d with
      | Some x => value_at rest x
      | None => None
      end
  | Index i :: rest, VList l =>
      match l !! i with
      | Some x => value_at rest x
      | None => None
      end
  | Payload :: rest, VTagged _ payload => value_at rest payload
  | _, _ => None
  end.

(** The keys of a mapping node whose keys are plain strings, in order. *)
Definition node_keys (n : node) : list string :=
  match n with
  | MappingNode _ pairs =>
      flat_map (fun kn => match fst kn with
                          | ScalarNode _ text => [text]
                          | _ => []
                          end) pairs
  | _ => []
  end.

(** The value node a mapping node holds under a key. *)
Definition node_get (key : string) (n : node) : option node :=
  match n with
  | MappingNode _ pairs =>
      dict_get key
        (flat_map (fun kn => match fst kn with
                             | ScalarNode _ text => [(text, snd kn)]
                             | _ => []
                             end) pairs)
  | _ => None
  end.

(** A node with the tag its kind has by default: what [_construct_tagged]
    builds the payload from, the text of a scalar as a [str], the items of
    a sequence as a [list], the pairs of a mapping as a [dict]. *)
Definition untagged (n : node) : node :=
  match n with
  | ScalarNode _ text => ScalarNode tag_str text
  | SequenceNode _ items => SequenceNode tag_seq items
  | MappingNode _ pairs => MappingNode tag_map pairs
  end.

(** The value node of a key among the pairs of a mapping node: the one of
    the last pair with that key, as [construct_mapping] stores the pairs in
    order, a later one over an earlier one. *)
Definition is_key (k : string) (key_node : node) : bool :=
  match key_node with
  | ScalarNode tag text =>
      match std_tag_of tag with
      | Some TStr => String.eqb text k
      | _ => false
      end
  | _ => false
  end.

Fixpoint pair_get (k : string) (pairs : list (node * node)) : option node :=
  match pairs with
  | [] => None
  | (key_node, value_node) :: rest =>
      match pair_get k rest with
      | Some n => Some n
      | None => if is_key k key_node then Some value_node else None
      end
  end.

(** The node at a place of a document: under a key of a plain mapping, at
    an index of a plain sequence, or, for a node with a custom tag, the
    node itself seen as the payload.  The places are those of [value_at] in
    the value the document loads to. *)
Fixpoint node_at (path : list step) (n : node) : option node :=
  match path with
  | [] => Some n
  | Key k :: rest =>
      match n with
      | MappingNode tag pairs =>
          match std_tag_of tag, pair_get k pairs with
          | Some TMap, Some m => node_at rest m
          | _, _ => None
          end
      | _ => None
      end
  | Index i :: rest =>
      match n with
      | SequenceNode tag items =>
          match std_tag_of tag, items !! i with
          | Some TSeq, Some m => node_at rest m
          | _, _ => None
          end
      | _ => None
      end
  | Payload :: rest =>
      match std_tag_of (node_tag n), custom_suffix (node_tag n) with
      | None, Some _ => node_at rest (untagged n)
      | _, _ => None
      end
  end.

(** The payload a node gives to the [Tagged] built from it. *)
Definition payload_of (n : node) (payload : value) : Prop :=
  match n with
  | ScalarNode _ text => payload = VStr text
  | SequenceNode _ items =>
      ∃ l, payload = VList l ∧
           Forall2 (fun item v => construct_object item = Ok v) items l
  | MappingNode _ pairs =>
      ∃ d, payload = VDict d ∧
           construct_mapping construct_object [] pairs = Ok d
  end.

(** ** Sample documents *)

(** A mapping node with plain string keys, and a plain string scalar. *)
Definition mapping_node (pairs : list (string * node)) : node :=
  MappingNode tag_map
    (map (fun kn => (represent_str (fst kn), snd kn)) pairs).

Definition str_node (s : string) : node := represent_str s.

(** The documents of the first scenario of the specification: a base with
    one resource and a description, a fragment that adds a resource, and a
    fragment that adds an output holding a tagged reference. *)
Definition sample_base : node :=
  mapping_node
    [("Description", str_node "sample");
     ("Resources", mapping_node [("A", mapping_node [("Type", str_node "X")])])].

Definition sample_fragment1 : node :=
  mapping_node
    [("Resources",
      mapping_node [("Bk", mapping_node [("Type", str_node "Y")])])].

Definition sample_fragment2 : node :=
  mapping_node
    [("Outputs",
      mapping_node
        [("O1", mapping_node [("Value", ScalarNode "!Ref" "Bk")])])].

Definition sample_fragment3 : node :=
  mapping_node
    [("Resources",
      mapping_node [("Ck", mapping_node [("Type", str_node "Z")]);
                    ("Aa", mapping_node [("Type", str_node "W")])])].

Definition sample_fs : filesystem :=
  [("base.yaml", Some sample_base);
   ("f1.yaml", Some sample_fragment1);
   ("f2.yaml", Some sample_fragment2);
   ("f3.yaml", Some sample_fragment3)].

Definition sample_base_doc : pydict value :=
  [("Description", VStr "sample");
   ("Resources", VDict [("A", VDict [("Type", VStr "X")])])].

Definition sample_doc1 : pydict value :=
  [("Resources", VDict [("Bk", VDict [("Type", VStr "Y")])])].

Definition sample_doc2 : pydict value :=
  [("Outputs", VDict [("O1", VDict [("Value", VTagged "!Ref" (VStr "Bk"))])])].

Definition sample_doc3 : pydict value :=
  [("Resources", VDict [("Ck", VDict [("Type", VStr "Z")]);
                        ("Aa", VDict [("Type", VStr "W")])])].

(** The files of [sample_fs], the first fragment holding two more keys that
    are not sections. *)
Definition sample_fs_extra : filesystem :=
  [("base.yaml", Some sample_base);
   ("f1.yaml",
    Some (mapping_node
            [("Description", str_node "from the fragment");
             ("Resources",
              mapping_node [("Bk", mapping_node [("Type", str_node "Y")])]);
             ("Metadata", SequenceNode tag_seq [])]));
   ("f2.yaml", Some sample_fragment2)].

Definition sample_doc1_extra : pydict value :=
  [("Description", VStr "from the fragment");
   ("Resources", VDict [("Bk", VDict [("Type", VStr "Y")])]);
   ("Metadata", VList [])].

(** Files for the collisions: two fragments that define the resource [A]
    of the base again, a fragment that defines it after a new resource and
    before another one, and a fragment whose [Parameters] is a string and
    that defines [A] again too. *)
Definition dup_fragment : node :=
  mapping_node
    [("Resources", mapping_node [("A", mapping_node [("Type", str_node "Z")])])].

Definition dup_later_fragment : node :=
  mapping_node
    [("Parameters", mapping_node [("P", str_node "p")]);
     ("Resources",
      mapping_node [("Ck", str_node "c"); ("A", str_node "a");
                    ("Bk", str_node "b")])].

Definition bad_section_fragment : node :=
  mapping_node
    [("Parameters", str_node "not-a-mapping");
     ("Resources", mapping_node [("A", str_node "a")])].

Definition collision_fs : filesystem :=
  [("base.yaml", Some sample_base);
   ("f1.yaml", Some sample_fragment1);
   ("dup1.yaml", Some dup_fragment);
   ("dup2.yaml", Some dup_fragment);
   ("later.yaml", Some dup_later_fragment);
   ("bad.yaml", Some bad_section_fragment)].

Definition dup_doc : pydict value :=
  [("Resources", VDict [("A", VDict [("Type", VStr "Z")])])].

Definition dup_later_doc : pydict value :=
  [("Parameters", VDict [("P", VStr "p")]);
   ("Resources", VDict [("Ck", VStr "c"); ("A", VStr "a"); ("Bk", VStr "b")])].


Definition bad_late_fragment : node :=
  mapping_node
    [("Outputs", str_node "not-a-mapping");
     ("Resources", mapping_node [("A", str_node "a")])].

Definition bad_base : node :=
  mapping_node [("Parameters", str_node "not-a-mapping")].

Definition bad_fs : filesystem :=
  [("base.yaml", Some sample_base);
   ("f1.yaml", Some sample_fragment1);
   ("badbase.yaml", Some bad_base);
   ("badlate.yaml", Some bad_late_fragment);
   ("bad.yaml", Some bad_section_fragment)].


(** Files whose document is not a mapping but is false in Python: an empty
    sequence, an empty string, zero, [false]. *)
Definition falsy_fs : filesystem :=
  [("seq.yaml", Some (SequenceNode tag_seq []));
   ("str.yaml", Some (ScalarNode tag_str ""));
   ("int.yaml", Some (ScalarNode tag_int "0"));
   ("bool.yaml", Some (ScalarNode tag_bool "false"));
   ("list.yaml", Some (SequenceNode tag_seq [str_node "a"]))].

(** A base that gives [Resources] an anchor and [Outputs] its alias,
<<
Resources: &shared
  A: {Type: X}
Outputs: *shared
>>
    as [yaml.load] returns it: one dictionary object under the two keys.
    Read as a tree it is [shared_tree]. *)
Definition shared_store : store := [[("A", VDict [("Type", VStr "X")])]].

Definition shared_base : pydict entry :=
  [("Resources", DictRef 0); ("Outputs", DictRef 0)].

Definition shared_tree : pydict value :=
  [("Resources", VDict [("A", VDict [("Type", VStr "X")])]);
   ("Outputs", VDict [("A", VDict [("Type", VStr "X")])])].

(** The same with the anchor on [Metadata], which is no section, and the
    alias on [Resources]. *)
Definition shared_meta_base : pydict entry :=
  [("Metadata", DictRef 0); ("Resources", DictRef 0)].

(** Two fragments that each add a resource and an output. *)
Definition both_fragment1 : node :=
  mapping_node
    [("Resources", mapping_node [("B1", mapping_node [("Type", str_node "Y")])]);
     ("Outputs", mapping_node [("C1", mapping_node [("Value", str_node "c")])])].

Definition both_fragment2 : node :=
  mapping_node
    [("Resources", mapping_node [("B2", mapping_node [("Type", str_node "Y")])]);
     ("Outputs", mapping_node [("C2", mapping_node [("Value", str_node "c")])])].

Definition both_fs : filesystem :=
  [("g1.yaml", Some both_fragment1); ("g2.yaml", Some both_fragment2)].

Definition both_doc1 : pydict value :=
  [("Resources", VDict [("B1", VDict [("Type", VStr "Y")])]);
   ("Outputs", VDict [("C1", VDict [("Value", VStr "c")])])].

Definition both_doc2 : pydict value :=
  [("Resources", VDict [("B2", VDict [("Type", VStr "Y")])]);
   ("Outputs", VDict [("C2", VDict [("Value", VStr "c")])])].

(** The base of [sample_fs] as the loader returns it. *)
Definition sample_base_store : store := [[("A", VDict [("Type", VStr "X")])]].

Definition sample_base_root : pydict entry :=
  [("Description", Plain (VStr "sample")); ("Resources", DictRef 0)].

(** A document with custom tags on a sequence, on a mapping and on
    scalars, one inside the other,
<<
Outputs:
  O1:
    Value: !Join
      - ","
      - [!Ref A, !GetAtt {Name: B, Attr: !Sub "${C}"}]
>>
*)
Definition tagged_join : node :=
  SequenceNode "!Join"
    [str_node ",";
     SequenceNode tag_seq
       [ScalarNode "!Ref" "A";
        MappingNode "!GetAtt"
          [(str_node "Name", str_node "B");
           (str_node "Attr", ScalarNode "!Sub" "${C}")]]].

Definition tagged_fs : filesystem :=
  [("tags.yaml",
    Some (mapping_node
            [("Outputs",
              mapping_node [("O1", mapping_node [("Value", tagged_join)])])]))].

(** ** Vocabulary of the further properties *)

(** The sections among [sections] that a document has and a list of keys
    lacks, in the order of [sections]: the keys [setdefault] adds to the
    root dictionary when the document is merged. *)
Definition new_sections (keys : list string) (doc : pydict value)
    (sections : list string) : list string :=
  List.filter
    (fun s => dict_mem s doc && negb (existsb (String.eqb s) keys))
    sections.

(** The keys the documents add to a root dictionary that has the keys
    [keys], document after document. *)
Fixpoint added_sections (keys : list string) (docs : list (pydict value))
    : list string :=
  match docs with
  | [] => []
  | doc :: rest =>
      new_sections keys doc SECTIONS
      ++ added_sections (keys ++ new_sections keys doc SECTIONS) rest
  end.

(** The exception of the first turn of the loop of [_merge_section] when
    [dest[section]] is the value [v], which is not a dictionary: the one of
    the [in] test when [v] is no container, a [DuplicateKeyError] when the
    test holds, the [TypeError] of the assignment otherwise. *)
Definition plain_section_error (section key path : string) (v : value)
    : error :=
  match py_contains key v with
  | Err e => e
  | Ok true => DuplicateKeyError section key path
  | Ok false => TypeError
  end.

(** Files with a base whose [Resources] is not a mapping. *)
Definition plain_base_fs : filesystem :=
  [("none.yaml", Some (mapping_node [("Resources", ScalarNode tag_null "")]));
   ("text.yaml", Some (mapping_node [("Resources", str_node "A and Bk")]));
   ("f1.yaml", Some sample_fragment1)].

(** ** Ordered dictionaries *)

Section DictFacts.
Context {V : Type}.
Implicit Types (d : pydict V) (k : string) (v : V).

Lemma dict_get_set_eq k v d : dict_get k (dict_set k v d) = Some v.
Proof.
  induction d as [|[k' v'] d IH]; simpl.
  - by rewrite String.eqb_refl.
  - destruct (String.eqb k k') eqn:E; simpl; rewrite E; auto.
Qed.

Lemma dict_get_set_ne k k' v d :
  k ≠ k' → dict_get k' (dict_set k v d) = dict_get k' d.
Proof.
  intros Hne. induction d as [|[k0 v0] d IH]; simpl.
  - destruct (String.eqb_spec k' k); congruence.
  - destruct (String.eqb_spec k k0) as [->|Hk]; simpl.
    + destruct (String.eqb_spec k' k0); congruence.
    + by rewrite IH.
Qed.

Lemma dict_get_None k d : dict_get k d = None ↔ k ∉ dict_keys d.
Proof.
  induction d as [|[k' v'] d IH]; simpl.
  - split; [intros _; apply not_elem_of_nil | done].
  - rewrite not_elem_of_cons.
    destruct (String.eqb_spec k k') as [->|Hk]; [|tauto].
    split; [done | tauto].
Qed.

Lemma dict_get_Some_keys k v d : dict_get k d = Some v → k ∈ dict_keys d.
Proof.
  intros H. destruct (decide (k ∈ dict_keys d)) as [|Hn]; [done|].
  apply dict_get_None in Hn. congruence.
Qed.

Lemma dict_get_elem_of k v d : dict_get k d = Some v → (k, v) ∈ d.
Proof.
  induction d as [|[k' v'] d IH]; simpl; [done|].
  destruct (String.eqb_spec k k') as [->|Hk].
  - intros [= ->]. left.
  - intros H. right. auto.
Qed.

Lemma dict_mem_true k d : dict_mem k d = true ↔ k ∈ dict_keys d.
Proof.
  unfold dict_mem. destruct (dict_get k d) eqn:E.
  - split; [intros _; eauto using dict_get_Some_keys | done].
  - split; [done|]. intros Hin. by apply dict_get_None in E.
Qed.

Lemma dict_mem_false k d : dict_mem k d = false ↔ k ∉ dict_keys d.
Proof.
  rewrite <- dict_mem_true. destruct (dict_mem k d); split; congruence.
Qed.

(** Assigning to a new key appends it. *)
Lemma dict_set_new k v d : k ∉ dict_keys d → dict_set k v d = d ++ [(k, v)].
Proof.
  induction d as [|[k' v'] d IH]; simpl; [done|].
  rewrite not_elem_of_cons. intros [Hk Hd].
  destruct (String.eqb_spec k k'); [done|]. by rewrite IH.
Qed.

(** Assigning the value a key already has changes nothing. *)
Lemma dict_set_same k v d : dict_get k d = Some v → dict_set k v d = d.
Proof.
  induction d as [|[k' v'] d IH]; simpl; [done|].
  destruct (String.eqb_spec k k') as [->|Hk].
  - by intros [= ->].
  - intros H. by rewrite IH.
Qed.

Lemma dict_set_set k v v' d :
  dict_set k v' (dict_set k v d) = dict_set k v' d.
Proof.
  induction d as [|[k0 v0] d IH]; simpl.
  - by rewrite String.eqb_refl.
  - destruct (String.eqb k k0) eqn:E; simpl; rewrite E; [done|].
    by rewrite IH.
Qed.

Lemma dict_keys_set_mem k v d :
  k ∈ dict_keys d → dict_keys (dict_set k v d) = dict_keys d.
Proof.
  induction d as [|[k' v'] d IH]; simpl.
  - by intros ?%elem_of_nil.
  - destruct (String.eqb_spec k k') as [->|Hk]; [done|].
    intros [?|?]%elem_of_cons; [done|]. simpl. by rewrite IH.
Qed.

Lemma dict_get_app k d1 d2 :
  dict_get k (d1 ++ d2) =
  match dict_get k d1 with Some v => Some v | None => dict_get k d2 end.
Proof.
  induction d1 as [|[k' v'] d1 IH]; simpl; [done|].
  by destruct (String.eqb k k').
Qed.

Lemma dict_keys_app d1 d2 :
  dict_keys (d1 ++ d2) = dict_keys d1 ++ dict_keys d2.
Proof. apply map_app. Qed.

(** With distinct keys, every pair of the list is what [dict_get] finds. *)
Lemma dict_get_of_elem k v d :
  NoDup (dict_keys d) → (k, v) ∈ d → dict_get k d = Some v.
Proof.
  induction d as [|[k' v'] d IH]; simpl.
  - by intros _ ?%elem_of_nil.
  - intros [Hk Hd]%NoDup_cons [[= -> ->]|Hin]%elem_of_cons.
    + by rewrite String.eqb_refl.
    + destruct (String.eqb_spec k k') as [->|]; [|auto].
      exfalso. apply Hk. unfold dict_keys.
      apply (list_elem_of_fmap_2 fst) in Hin. exact Hin.
Qed.
End DictFacts.

(** ** The store and the view of a root dictionary *)

Lemma store_get_insert_eq (h : store) l x :
  l < length h → store_get (<[l := x]> h) l = x.
Proof. intros H. unfold store_get. by rewrite list_lookup_insert_eq. Qed.

Lemma store_get_insert_ne (h : store) l l' x :
  l ≠ l' → store_get (<[l := x]> h) l' = store_get h l'.
Proof. intros H. unfold store_get. by rewrite list_lookup_insert_ne. Qed.

Lemma store_get_app_l (h ext : store) l :
  l < length h → store_get (h ++ ext) l = store_get h l.
Proof. intros H. unfold store_get. by rewrite lookup_app_l. Qed.

Lemma store_get_app_new (h : store) x ext :
  store_get (h ++ x :: ext) (length h) = x.
Proof. unfold store_get. by rewrite list_lookup_middle. Qed.

Lemma dict_get_view h k (d : pydict entry) :
  dict_get k (view h d) = deref h <$> dict_get k d.
Proof.
  induction d as [|[k' e] d IH]; simpl; [done|].
  by destruct (String.eqb k k').
Qed.

Lemma dict_keys_view h (d : pydict entry) :
  dict_keys (view h d) = dict_keys d.
Proof.
  unfold dict_keys, view. rewrite map_map. by apply map_ext.
Qed.

Lemma view_app h (d1 d2 : pydict entry) :
  view h (d1 ++ d2) = view h d1 ++ view h d2.
Proof. apply map_app. Qed.

Lemma locs_app (d1 d2 : pydict entry) : locs (d1 ++ d2) = locs d1 ++ locs d2.
Proof.
  unfold locs. induction d1 as [|kv d1 IH]; simpl; [done|].
  by rewrite IH, app_assoc.
Qed.

Lemma dict_get_locs k l (d : pydict entry) :
  dict_get k d = Some (DictRef l) → l ∈ locs d.
Proof.
  induction d as [|[k' e] d IH]; simpl; [done|].
  destruct (String.eqb k k').
  - intros [= ->]. simpl. left.
  - intros H. unfold locs. simpl. apply elem_of_app. right. by apply IH.
Qed.

(** Two stores that agree on the objects of a root dictionary show the
    same tree. *)
Lemma view_ext h h' (d : pydict entry) :
  (∀ l, l ∈ locs d → store_get h' l = store_get h l) →
  view h' d = view h d.
Proof.
  induction d as [|[k e] d IH]; simpl; [done|].
  intros H. rewrite IH.
  - f_equal. f_equal. destruct e as [l|v]; simpl; [|done].
    rewrite H; [done|]. unfold locs. simpl. left.
  - intros l Hl. apply H. unfold locs. simpl. destruct e; simpl; [right|]; done.
Qed.

Lemma view_insert_notin h l x (d : pydict entry) :
  l ∉ locs d → view (<[l := x]> h) d = view h d.
Proof.
  intros Hl. apply view_ext. intros l' Hl'.
  apply store_get_insert_ne. intros ->. done.
Qed.

Lemma store_wf_tail h kv (d : pydict entry) :
  store_wf h (kv :: d) → store_wf h d.
Proof.
  intros [Hnd Hb Hp]. unfold locs in *. simpl in *.
  apply NoDup_app in Hnd as (_ & _ & Hnd).
  split; [done| |by inversion Hp].
  intros l Hl. apply Hb. apply elem_of_app. by right.
Qed.

(** Assigning into the object a key refers to is assigning under that key
    in the tree. *)
Lemma view_insert h k l x (d : pydict entry) :
  store_wf h d → dict_get k d = Some (DictRef l) →
  view (<[l := x]> h) d = dict_set k (VDict x) (view h d).
Proof.
  induction d as [|[k' e] d IH]; simpl; [done|].
  intros Hwf Hget.
  pose proof (store_wf_tail _ _ _ Hwf) as Hwf'.
  destruct Hwf as [Hnd Hb _]. unfold locs in Hnd, Hb. simpl in Hnd, Hb.
  destruct (String.eqb_spec k k') as [->|Hk].
  - injection Hget as ->. simpl in *.
    apply NoDup_cons in Hnd as [Hl _].
    rewrite store_get_insert_eq by (apply Hb; left).
    by rewrite view_insert_notin.
  - rewrite IH by done. f_equal. f_equal.
    destruct e as [l'|v]; simpl; [|done].
    rewrite store_get_insert_ne; [done|]. intros ->.
    simpl in Hnd. apply NoDup_cons in Hnd as [Hl _].
    apply Hl. by eapply dict_get_locs.
Qed.

Lemma store_wf_insert h l x (d : pydict entry) :
  store_wf h d → store_wf (<[l := x]> h) d.
Proof.
  intros [Hnd Hb Hp]. split; [done| |done].
  intros l' Hl'. rewrite length_insert. auto.
Qed.

Lemma store_wf_grow h ext (d : pydict entry) :
  store_wf h d → store_wf (h ++ ext) d.
Proof.
  intros [Hnd Hb Hp]. split; [done| |done].
  intros l Hl. rewrite length_app. specialize (Hb l Hl). lia.
Qed.

Lemma view_grow h ext (d : pydict entry) :
  store_wf h d → view (h ++ ext) d = view h d.
Proof.
  intros [_ Hb _]. apply view_ext. intros l Hl.
  apply store_get_app_l. auto.
Qed.

(** [setdefault] on a missing key: the fresh dictionary is a new object. *)
Lemma store_wf_setdefault h k (d : pydict entry) :
  store_wf h d → dict_mem k d = false →
  store_wf (h ++ [[]]) (dict_set k (DictRef (length h)) d) ∧
  view (h ++ [[]]) (dict_set k (DictRef (length h)) d)
  = dict_set k (VDict []) (view h d).
Proof.
  intros Hwf Hk. pose proof Hwf as [Hnd Hb Hp].
  apply dict_mem_false in Hk.
  rewrite dict_set_new by done.
  rewrite dict_set_new by (by rewrite dict_keys_view).
  split.
  - split.
    + rewrite locs_app. apply NoDup_app. split; [done|]. split.
      * intros l Hl. unfold locs. simpl. intros [->|?%elem_of_nil]%elem_of_cons; [|done].
        specialize (Hb _ Hl). lia.
      * unfold locs. simpl. apply NoDup_singleton.
    + intros l. rewrite locs_app, elem_of_app, length_app. simpl.
      intros [Hl|Hl]; [specialize (Hb _ Hl); lia|].
      unfold locs in Hl. simpl in Hl. apply list_elem_of_singleton in Hl. lia.
    + apply Forall_app. split; [done|]. by repeat constructor.
  - rewrite view_app, view_grow by done. simpl. f_equal. f_equal. f_equal.
    f_equal. apply (store_get_app_new h [] []).
Qed.

(** ** The program refines the merge on trees *)

Lemma insert_items_refines dest section path items : ∀ h,
  store_wf h dest →
  match insert_items dest section path items h with
  | (Ok _, h') =>
      store_wf h' dest ∧
      tree_insert_items (view h dest) section path items = Ok (view h' dest)
  | (Err e, _) =>
      tree_insert_items (view h dest) section path items = Err e
  end.
Proof.
  induction items as [|[key item] rest IH]; intros h Hwf; simpl; [done|].
  rewrite dict_get_view.
  destruct (dict_get section dest) as [[l|v]|] eqn:Hget; simpl; [| |done].
  - destruct (dict_mem key (store_get h l)) eqn:Hmem; [done|].
    specialize (IH (<[l := dict_set key item (store_get h l)]> h)
                  (store_wf_insert _ _ _ _ Hwf)).
    by rewrite (view_insert _ _ _ _ _ Hwf Hget) in IH.
  - assert (plain_ok (Plain v)) as Hv.
    { destruct Hwf as [_ _ Hp]. rewrite Forall_forall in Hp.
      apply dict_get_elem_of in Hget. apply (Hp _ Hget). }
    destruct v; simpl in *; try done.
    + by destruct (is_substring key s).
    + by destruct (existsb _ items).
Qed.

Lemma merge_section_refines dest src section path h :
  store_wf h dest →
  refines (_merge_section dest src section path h)
          (tree_merge_section (view h dest) src section path).
Proof.
  intros Hwf. unfold _merge_section, tree_merge_section.
  destruct (dict_get section src) as [v|]; [|done].
  destruct v; try done.
  unfold bind, setdefault_dict, dict_setdefault.
  assert (dict_mem section (view h dest) = dict_mem section dest) as ->.
  { unfold dict_mem. rewrite dict_get_view. by destruct (dict_get section dest). }
  destruct (dict_mem section dest) eqn:Hmem.
  - pose proof (insert_items_refines dest section path entries h Hwf) as H.
    destruct (insert_items dest section path entries h) as [[[]|e] h']; simpl; done.
  - destruct (store_wf_setdefault h section dest Hwf Hmem) as [Hwf' Hview].
    pose proof (insert_items_refines _ section path entries _ Hwf') as H.
    rewrite Hview in H.
    destruct (insert_items _ section path entries _) as [[[]|e] h']; simpl; done.
Qed.

Lemma merge_sections_refines data fragment sections : ∀ merged h,
  store_wf h merged →
  refines (merge_sections merged data fragment sections h)
          (tree_merge_sections (view h merged) data fragment sections).
Proof.
  induction sections as [|s rest IH]; intros merged h Hwf; simpl; [done|].
  unfold bind.
  pose proof (merge_section_refines merged data s fragment h Hwf) as H.
  destruct (_merge_section merged data s fragment h) as [[m'|e] h']; simpl in *.
  - destruct H as [Hwf' ->]. by apply IH.
  - by rewrite H.
Qed.

Lemma merge_fragments_refines fs fragment_paths : ∀ merged h,
  store_wf h merged →
  refines (merge_fragments fs merged fragment_paths h)
          (tree_merge_fragments fs (view h merged) fragment_paths).
Proof.
  induction fragment_paths as [|p rest IH]; intros merged h Hwf;
    cbn [merge_fragments tree_merge_fragments]; [done|].
  destruct (_load_yaml fs p) as [data|e]; [|done].
  unfold bind.
  pose proof (merge_sections_refines data p SECTIONS merged h Hwf) as H.
  destruct (merge_sections merged data p SECTIONS h) as [[m'|e] h'];
    cbn [refines] in H.
  - destruct H as [Hwf' ->]. by apply IH.
  - by rewrite H.
Qed.

(** Allocating the root dictionary gives a store it fits, with the loaded
    tree as its view. *)
Lemma alloc_document_spec d : ∀ h base h',
  alloc_document d h = (base, h') →
  (∃ ext, h' = h ++ ext) ∧
  NoDup (locs base) ∧
  (∀ l, l ∈ locs base → length h ≤ l < length h') ∧
  Forall (fun kv => plain_ok (snd kv)) base ∧
  view h' base = d.
Proof.
  induction d as [|[k v] d IH]; intros h base h'; simpl.
  - intros [= <- <-]. split; [by exists []; rewrite app_nil_r|].
    split; [constructor|]. split; [by intros l ?%elem_of_nil|]. done.
  - assert (∀ base h', (let (rest', h'0) := alloc_document d h in
                        ((k, Plain v) :: rest', h'0)) = (base, h') →
              plain_ok (Plain v) →
              (∃ ext, h' = h ++ ext) ∧ NoDup (locs base) ∧
              (∀ l, l ∈ locs base → length h ≤ l < length h') ∧
              Forall (λ kv, plain_ok kv.2) base ∧
              view h' base = (k, v) :: d) as Hplain.
    { clear base h'. intros base h'.
      destruct (alloc_document d h) as [rest' h0] eqn:E.
      intros [= <- <-] Hv.
      destruct (IH _ _ _ E) as (Hext & Hnd & Hb & Hp & Hview).
      split; [done|]. split; [done|]. split; [done|].
      split; [by constructor|]. simpl. by rewrite Hview. }
    destruct v; try (intros H; apply Hplain; done).
    destruct (alloc_document d (h ++ [entries])) as [rest' h0] eqn:E.
    intros [= <- <-].
    destruct (IH _ _ _ E) as ([ext ->] & Hnd & Hb & Hp & Hview).
    rewrite length_app in Hb. simpl in Hb.
    split; [exists (entries :: ext); by rewrite <- app_assoc|].
    split.
    { unfold locs. simpl. apply NoDup_cons. split; [|done].
      intros Hl. apply Hb in Hl. lia. }
    split.
    { intros l. unfold locs. simpl. rewrite !length_app. simpl.
      intros [->|Hl]%elem_of_cons; [lia|]. apply Hb in Hl.
      rewrite !length_app in Hl. simpl in Hl. lia. }
    split; [by constructor|].
    simpl. rewrite Hview. f_equal. f_equal. f_equal.
    rewrite <- app_assoc. simpl. apply store_get_app_new.
Qed.

Lemma alloc_document_wf d base h :
  alloc_document d [] = (base, h) → store_wf h base ∧ view h base = d.
Proof.
  intros H. destruct (alloc_document_spec _ _ _ _ H) as (_ & Hnd & Hb & Hp & Hv).
  split; [|done]. split; [done| |done]. intros l Hl. apply Hb in Hl. lia.
Qed.

(** A run of [merge_templates] ends as the merge of the loaded trees
    does, and dumps its result. *)
Lemma merge_templates_tree fs base_path fragment_paths out_path :
  merge_templates fs base_path fragment_paths out_path =
  match _load_yaml fs base_path with
  | Err e => failed e fs
  | Ok base =>
      match tree_merge_fragments fs base fragment_paths with
      | Err e => failed e fs
      | Ok doc => succeeded doc fs out_path
      end
  end.
Proof.
  unfold merge_templates. destruct (_load_yaml fs base_path) as [B|e]; [|done].
  destruct (alloc_document B []) as [base h] eqn:E.
  destruct (alloc_document_wf _ _ _ E) as [Hwf Hview].
  pose proof (merge_fragments_refines fs fragment_paths base h Hwf) as H.
  rewrite Hview in H.
  destruct (merge_fragments fs base fragment_paths h) as [[m|e] h']; simpl in H.
  - destruct H as [_ ->]. done.
  - by rewrite H.
Qed.

(** [merge_templates] is [merge_loaded] on the root dictionary a document
    without anchors loads to. *)
Lemma merge_templates_loaded fs base_path fragment_paths out_path :
  merge_templates fs base_path fragment_paths out_path =
  match _load_yaml fs base_path with
  | Err e => failed e fs
  | Ok base_tree =>
      let (base, h) := alloc_document base_tree [] in
      merge_loaded fs base h fragment_paths out_path
  end.
Proof.
  unfold merge_templates, merge_loaded.
  destruct (_load_yaml fs base_path) as [B|e]; [|done].
  by destruct (alloc_document B []).
Qed.

(** On a root dictionary that holds no object under two keys the run ends
    as the merge of the trees does. *)
Lemma merge_loaded_tree fs base h fragment_paths out_path :
  store_wf h base →
  merge_loaded fs base h fragment_paths out_path =
  match tree_merge_fragments fs (view h base) fragment_paths with
  | Err e => failed e fs
  | Ok doc => succeeded doc fs out_path
  end.
Proof.
  intros Hwf. unfold merge_loaded.
  pose proof (merge_fragments_refines fs fragment_paths base h Hwf) as H.
  destruct (merge_fragments fs base fragment_paths h) as [[m|e] h']; simpl in H.
  - destruct H as [_ ->]. done.
  - by rewrite H.
Qed.

(** The root dictionary of the samples is the one the base of [sample_fs]
    loads to. *)
Example sample_base_root_loaded :
  _load_yaml sample_fs "base.yaml" = Ok sample_base_doc ∧
  alloc_document sample_base_doc [] = (sample_base_root, sample_base_store) ∧
  view sample_base_store sample_base_root = sample_base_doc.
Proof. repeat split; reflexivity. Qed.

(** It has its one dictionary under one key; the root dictionary of
    [shared_base] has one under two. *)
Example shared_base_not_wf : ¬ store_wf shared_store shared_base.
Proof.
  intros [Hnd _ _]. revert Hnd. apply (bool_decide_unpack _). by vm_compute.
Qed.

Lemma sample_base_root_wf : store_wf sample_base_store sample_base_root.
Proof.
  split.
  - apply (bool_decide_unpack _). by vm_compute.
  - apply Forall_forall. repeat constructor.
  - repeat constructor.
Qed.

(** ** The merge of one section, on trees *)

Lemma first_duplicate_None d items :
  first_duplicate d items = None ↔
  NoDup (dict_keys items) ∧ ∀ k, k ∈ dict_keys items → k ∉ dict_keys d.
Proof.
  revert d. induction items as [|[k v] rest IH]; intros d; simpl.
  - split; [|done]. intros _. split; [constructor|]. by intros k ?%elem_of_nil.
  - destruct (dict_mem k d) eqn:Hmem.
    + split; [done|]. intros [_ H]. apply dict_mem_true in Hmem.
      exfalso. apply (H k); [left|done].
    + apply dict_mem_false in Hmem. rewrite IH, dict_set_new by done.
      rewrite dict_keys_app. simpl. rewrite NoDup_cons. split.
      * intros [Hnd H]. split.
        -- split; [|done]. intros Hk. apply (H k Hk). apply elem_of_app.
           right. left.
        -- intros k' [->|Hk']%elem_of_cons; [done|].
           intros Hd. apply (H k' Hk'). apply elem_of_app. by left.
      * intros [[Hk Hnd] H]. split; [done|].
        intros k' Hk' [Hd|Hd%list_elem_of_singleton]%elem_of_app.
        -- apply (H k'); [by right|done].
        -- by subst.
Qed.

Lemma first_duplicate_app d items1 items2 :
  first_duplicate d (items1 ++ items2) =
  match first_duplicate d items1 with
  | Some k => Some k
  | None => first_duplicate (d ++ items1) items2
  end.
Proof.
  revert d. induction items1 as [|[k v] rest IH]; intros d; simpl.
  - by rewrite app_nil_r.
  - destruct (dict_mem k d) eqn:Hmem; [done|].
    apply dict_mem_false in Hmem. rewrite IH, dict_set_new by done.
    by rewrite <- app_assoc.
Qed.


(** The loop over the items, when [dest[section]] is a dictionary. *)
Lemma tree_insert_items_dict section path items : ∀ dest d,
  dict_get section dest = Some (VDict d) →
  tree_insert_items dest section path items =
  match first_duplicate d items with
  | Some k => Err (DuplicateKeyError section k path)
  | None => Ok (dict_set section (VDict (d ++ items)) dest)
  end.
Proof.
  induction items as [|[k v] rest IH]; intros dest d Hget; simpl.
  - by rewrite app_nil_r, dict_set_same.
  - rewrite Hget. destruct (dict_mem k d) eqn:Hmem; [done|].
    rewrite (IH _ (dict_set k v d)) by apply dict_get_set_eq.
    destruct (first_duplicate (dict_set k v d) rest); [done|].
    apply dict_mem_false in Hmem.
    by rewrite dict_set_set, (dict_set_new k v d), <- app_assoc.
Qed.

(** The loop over the items, when [dest[section]] is not a dictionary: it
    ends normally only when there is no item. *)
Lemma tree_insert_items_plain section path items dest v dest' :
  dict_get section dest = Some v → is_dict v = false →
  tree_insert_items dest section path items = Ok dest' →
  items = [] ∧ dest' = dest.
Proof.
  intros Hget Hv. destruct items as [|[k x] rest]; simpl.
  - by intros [= <-].
  - rewrite Hget. destruct v; try done; simpl.
    + by destruct (is_substring k s).
    + by destruct (existsb _ items).
Qed.

Lemma section_items_dict doc section d :
  dict_get section doc = Some (VDict d) → section_items doc section = d.
Proof. unfold section_items. by intros ->. Qed.

Lemma section_items_absent doc section :
  dict_get section doc = None → section_items doc section = [].
Proof. unfold section_items. by intros ->. Qed.

Lemma section_items_ne doc doc' section :
  dict_get section doc' = dict_get section doc →
  section_items doc' section = section_items doc section.
Proof. unfold section_items. by intros ->. Qed.

(** [_merge_section] on a destination whose section is absent or a
    mapping, for a source section that is a mapping. *)
Lemma tree_merge_section_valid dest src section path items :
  section_valid dest section →
  dict_get section src = Some (VDict items) →
  tree_merge_section dest src section path =
  match first_duplicate (section_items dest section) items with
  | Some k => Err (DuplicateKeyError section k path)
  | None =>
      Ok (dict_set section (VDict (section_items dest section ++ items)) dest)
  end.
Proof.
  unfold section_valid, tree_merge_section, dict_setdefault, dict_mem,
    section_items.
  intros Hv ->. destruct (dict_get section dest) as [v|] eqn:Hget.
  - destruct v; try done. by apply tree_insert_items_dict.
  - rewrite (tree_insert_items_dict _ _ _ _ []) by apply dict_get_set_eq.
    by rewrite dict_set_set.
Qed.

(** What a normal end of [_merge_section] tells. *)
Lemma tree_merge_section_Ok dest src section path dest' :
  tree_merge_section dest src section path = Ok dest' →
  section_valid src section ∧
  first_duplicate (section_items dest section) (section_items src section)
  = None ∧
  section_items dest' section
  = section_items dest section ++ section_items src section ∧
  (∀ k, k ≠ section → dict_get k dest' = dict_get k dest) ∧
  (section_valid dest section → section_valid dest' section).
Proof.
  intros H. unfold section_valid.
  destruct (dict_get section src) as [v|] eqn:Hsrc.
  2: { unfold tree_merge_section in H. rewrite Hsrc in H.
       injection H as <-. rewrite (section_items_absent src) by done.
       rewrite app_nil_r. repeat split; auto. }
  destruct v; try (unfold tree_merge_section in H; by rewrite Hsrc in H).
  rewrite (section_items_dict src _ _ Hsrc).
  destruct (dict_get section dest) as [v|] eqn:Hdest.
  - destruct (is_dict v) eqn:Hv.
    + destruct v; try done.
      rewrite (tree_merge_section_valid _ _ _ _ entries) in H;
        [|unfold section_valid; by rewrite Hdest|done].
      rewrite (section_items_dict dest _ _ Hdest) in *.
      destruct (first_duplicate entries0 entries); [done|]. injection H as <-.
      unfold section_items. rewrite dict_get_set_eq.
      repeat split; auto.
      intros k Hk. by apply dict_get_set_ne.
    + unfold tree_merge_section, dict_setdefault, dict_mem in H.
      rewrite Hsrc, Hdest in H.
      destruct (tree_insert_items_plain _ _ _ _ _ _ Hdest Hv H) as [-> ->].
      unfold section_items. rewrite Hdest. destruct v; try done.
      all: repeat split; auto; done.
  - rewrite (tree_merge_section_valid _ _ _ _ entries) in H;
      [|unfold section_valid; by rewrite Hdest|done].
    rewrite (section_items_absent dest) in * by done.
    destruct (first_duplicate [] entries); [done|]. injection H as <-.
    unfold section_items. rewrite dict_get_set_eq.
    repeat split; auto.
    intros k Hk. by apply dict_get_set_ne.
Qed.

(** ** The two loops of [merge_templates], on trees *)

Lemma NoDup_SECTIONS : NoDup SECTIONS.
Proof. apply (bool_decide_unpack _). by vm_compute. Qed.

Lemma valid_sections_spec doc :
  valid_sections doc = true ↔ ∀ s, s ∈ SECTIONS → section_valid doc s.
Proof.
  unfold valid_sections. rewrite forallb_forall. unfold section_valid.
  split; intros H s Hs.
  - apply list_elem_of_In in Hs. specialize (H s Hs).
    by destruct (dict_get s doc) as [[]|].
  - apply list_elem_of_In in Hs. specialize (H s Hs).
    by destruct (dict_get s doc) as [[]|].
Qed.

(** What a normal end of the loop over the section names tells. *)
Lemma tree_merge_sections_Ok data fragment sections : ∀ merged merged',
  NoDup sections →
  tree_merge_sections merged data fragment sections = Ok merged' →
  (∀ s, s ∈ sections →
     section_valid data s ∧
     first_duplicate (section_items merged s) (section_items data s) = None ∧
     section_items merged' s
     = section_items merged s ++ section_items data s ∧
     (section_valid merged s → section_valid merged' s)) ∧
  (∀ k, k ∉ sections → dict_get k merged' = dict_get k merged).
Proof.
  induction sections as [|s rest IH]; intros merged merged' Hnd; simpl.
  - intros [= <-]. split; [by intros s ?%elem_of_nil | done].
  - apply NoDup_cons in Hnd as [Hs Hnd].
    destruct (tree_merge_section merged data s fragment) as [m1|e] eqn:E1;
      [|done].
    intros H. destruct (IH _ _ Hnd H) as [Hrest Hother].
    destruct (tree_merge_section_Ok _ _ _ _ _ E1)
      as (Hv & Hfd & Hitems & Hne & Hval).
    split.
    + intros s' [->|Hs']%elem_of_cons.
      * split; [done|]. split; [done|].
        unfold section_valid.
        rewrite (section_items_ne m1 merged' s) by (by apply Hother).
        rewrite (Hother s Hs). done.
      * assert (s' ≠ s) as Hne' by (intros ->; done).
        destruct (Hrest s' Hs') as (Hv' & Hfd' & Hitems' & Hval').
        rewrite (section_items_ne merged m1 s') in * by (by apply Hne).
        unfold section_valid in *. rewrite (Hne s' Hne') in Hval'. done.
    + intros k [Hk1 Hk2]%not_elem_of_cons.
      rewrite (Hother k Hk2). by apply Hne.
Qed.

(** The loop over the section names ends normally on valid documents
    whose item names do not collide. *)
Lemma tree_merge_sections_disjoint data fragment sections : ∀ merged,
  NoDup sections →
  (∀ s, s ∈ sections → section_valid merged s) →
  (∀ s, s ∈ sections → section_valid data s) →
  (∀ s, s ∈ sections →
     first_duplicate (section_items merged s) (section_items data s) = None) →
  ∃ merged', tree_merge_sections merged data fragment sections = Ok merged'.
Proof.
  induction sections as [|s rest IH]; intros merged Hnd Hm Hd Hfd; simpl.
  - by eexists.
  - apply NoDup_cons in Hnd as [Hs Hnd].
    assert (∃ m1, tree_merge_section merged data s fragment = Ok m1) as [m1 E1].
    { pose proof (Hd s ltac:(left)) as Hds. unfold section_valid in Hds.
      destruct (dict_get s data) as [v|] eqn:Hget.
      - destruct v; try done.
        rewrite (tree_merge_section_valid _ _ _ _ entries); [|apply Hm; left|done].
        specialize (Hfd s ltac:(left)).
        rewrite (section_items_dict data _ _ Hget) in Hfd. rewrite Hfd.
        by eexists.
      - unfold tree_merge_section. rewrite Hget. by eexists. }
    rewrite E1.
    destruct (tree_merge_section_Ok _ _ _ _ _ E1) as (_ & _ & _ & Hne & _).
    apply IH; [done| |by intros; apply Hd; right|].
    + intros s' Hs'. assert (s' ≠ s) by (intros ->; done).
      unfold section_valid. rewrite Hne by done. apply Hm. by right.
    + intros s' Hs'. assert (s' ≠ s) by (intros ->; done).
      rewrite (section_items_ne merged m1 s') by (by apply Hne).
      apply Hfd. by right.
Qed.

Lemma all_items_cons doc docs s :
  all_items (doc :: docs) s = section_items doc s ++ all_items docs s.
Proof. done. Qed.

(** What a normal end of the loop over the fragments tells: every fragment
    loaded, its sections were mappings, no item name collided, and every
    section grew by the items of the fragments, in order. *)
Lemma tree_merge_fragments_Ok fs fragment_paths : ∀ merged merged',
  tree_merge_fragments fs merged fragment_paths = Ok merged' →
  ∃ docs,
    load_all fs fragment_paths = Ok docs ∧
    Forall (fun doc => ∀ s, s ∈ SECTIONS → section_valid doc s) docs ∧
    (∀ s, s ∈ SECTIONS →
       first_duplicate (section_items merged s) (all_items docs s) = None ∧
       section_items merged' s = section_items merged s ++ all_items docs s ∧
       (section_valid merged s → section_valid merged' s)) ∧
    (∀ k, k ∉ SECTIONS → dict_get k merged' = dict_get k merged).
Proof.
  induction fragment_paths as [|p rest IH]; intros merged merged';
    cbn [tree_merge_fragments load_all].
  - intros [= <-]. exists []. split; [done|]. split; [done|].
    split; [|done]. intros s _. simpl. by rewrite app_nil_r.
  - destruct (_load_yaml fs p) as [data|e]; [|done].
    destruct (tree_merge_sections merged data p SECTIONS) as [m1|e] eqn:E1;
      [|done].
    intros H. destruct (IH _ _ H) as (docs & -> & Hvalid & Hsec & Hother).
    destruct (tree_merge_sections_Ok _ _ _ _ _ NoDup_SECTIONS E1)
      as [Hsec1 Hother1].
    exists (data :: docs). split; [done|]. split.
    { constructor; [|done]. intros s Hs. by apply Hsec1. }
    split.
    + intros s Hs. destruct (Hsec1 s Hs) as (_ & Hfd1 & Hitems1 & Hval1).
      destruct (Hsec s Hs) as (Hfd & Hitems & Hval).
      rewrite all_items_cons, first_duplicate_app, Hfd1.
      rewrite Hitems1 in Hfd, Hitems. rewrite <- app_assoc in Hitems. auto.
    + intros k Hk. rewrite (Hother k Hk). by apply Hother1.
Qed.

(** The loop over the fragments ends normally on valid documents whose
    item names do not collide. *)
Lemma tree_merge_fragments_disjoint fs fragment_paths : ∀ merged docs,
  load_all fs fragment_paths = Ok docs →
  (∀ s, s ∈ SECTIONS → section_valid merged s) →
  Forall (fun doc => ∀ s, s ∈ SECTIONS → section_valid doc s) docs →
  (∀ s, s ∈ SECTIONS →
     first_duplicate (section_items merged s) (all_items docs s) = None) →
  ∃ merged', tree_merge_fragments fs merged fragment_paths = Ok merged'.
Proof.
  induction fragment_paths as [|p rest IH]; intros merged docs;
    cbn [tree_merge_fragments load_all].
  - by eexists.
  - destruct (_load_yaml fs p) as [data|e]; [|done].
    destruct (load_all fs rest) as [docs'|e] eqn:Hload; [|done].
    intros [= <-] Hm Hd Hfd. apply Forall_cons in Hd as [Hd1 Hd].
    assert (∀ s, s ∈ SECTIONS →
              first_duplicate (section_items merged s) (section_items data s)
              = None ∧
              first_duplicate (section_items merged s ++ section_items data s)
                (all_items docs' s) = None) as Hsplit.
    { intros s Hs. specialize (Hfd s Hs).
      rewrite all_items_cons, first_duplicate_app in Hfd.
      by destruct (first_duplicate (section_items merged s)
                     (section_items data s)). }
    destruct (tree_merge_sections_disjoint data p SECTIONS merged
                NoDup_SECTIONS Hm Hd1) as [m1 E1].
    { intros s Hs. by apply Hsplit. }
    rewrite E1.
    destruct (tree_merge_sections_Ok _ _ _ _ _ NoDup_SECTIONS E1)
      as [Hsec1 _].
    apply (IH m1 docs'); [done| |done|].
    + intros s Hs. destruct (Hsec1 s Hs) as (_ & _ & _ & Hval). auto.
    + intros s Hs. destruct (Hsec1 s Hs) as (_ & _ & -> & _).
      by apply Hsplit.
Qed.

(** The loops run fragment after fragment, section after section. *)
Lemma tree_merge_fragments_app fs pre post merged :
  tree_merge_fragments fs merged (pre ++ post) =
  match tree_merge_fragments fs merged pre with
  | Err e => Err e
  | Ok merged1 => tree_merge_fragments fs merged1 post
  end.
Proof.
  revert merged. induction pre as [|p rest IH]; intros merged;
    cbn [tree_merge_fragments app]; [done|].
  destruct (_load_yaml fs p) as [data|e]; [|done].
  by destruct (tree_merge_sections merged data p SECTIONS).
Qed.

Lemma tree_merge_sections_app data fragment pre post merged :
  tree_merge_sections merged data fragment (pre ++ post) =
  match tree_merge_sections merged data fragment pre with
  | Err e => Err e
  | Ok merged1 => tree_merge_sections merged1 data fragment post
  end.
Proof.
  revert merged. induction pre as [|s rest IH]; intros merged; simpl; [done|].
  by destruct (tree_merge_section merged data s fragment).
Qed.

(** ** Construction and representation *)

Lemma node_ind' (P : node → Prop) :
  (∀ tag text, P (ScalarNode tag text)) →
  (∀ tag items, Forall P items → P (SequenceNode tag items)) →
  (∀ tag pairs, Forall (fun kn => P (fst kn) ∧ P (snd kn)) pairs →
                P (MappingNode tag pairs)) →
  ∀ n, P n.
Proof.
  intros Hscalar Hseq Hmap. fix IH 1. intros [tag text|tag items|tag pairs].
  - apply Hscalar.
  - apply Hseq. revert items. fix IHitems 1. intros [|n items].
    + constructor.
    + constructor; [apply IH | apply IHitems].
  - apply Hmap. revert pairs. fix IHpairs 1. intros [|[kn vn] pairs].
    + constructor.
    + constructor; [split; apply IH | apply IHpairs].
Qed.

Lemma value_ind' (P : value → Prop) :
  P VNone → (∀ b, P (VBool b)) → (∀ z, P (VInt z)) → (∀ s, P (VStr s)) →
  (∀ l, Forall P l → P (VList l)) →
  (∀ d, Forall (fun kv => P (snd kv)) d → P (VDict d)) →
  (∀ tag payload, P payload → P (VTagged tag payload)) →
  ∀ v, P v.
Proof.
  intros Hnone Hbool Hint Hstr Hlist Hdict Htagged. fix IH 1.
  intros [|b|z|s|l|d|tag payload].
  - apply Hnone.
  - apply Hbool.
  - apply Hint.
  - apply Hstr.
  - apply Hlist. revert l. fix IHl 1. intros [|v l].
    + constructor.
    + constructor; [apply IH | apply IHl].
  - apply Hdict. revert d. fix IHd 1. intros [|[k v] d].
    + constructor.
    + constructor; [apply IH | apply IHd].
  - apply Htagged, IH.
Qed.

Lemma dict_keys_set_new {V} k (v : V) d :
  k ∉ dict_keys d → dict_keys (dict_set k v d) = dict_keys d ++ [k].
Proof. intros H. by rewrite dict_set_new, dict_keys_app. Qed.

Lemma dict_set_NoDup {V} k (v : V) d :
  NoDup (dict_keys d) → NoDup (dict_keys (dict_set k v d)).
Proof.
  intros Hnd. destruct (decide (k ∈ dict_keys d)) as [Hk|Hk].
  - by rewrite dict_keys_set_mem.
  - rewrite dict_keys_set_new by done. apply NoDup_app.
    split; [done|]. split; [|apply NoDup_singleton].
    intros k' Hk' ->%list_elem_of_singleton. done.
Qed.

Lemma dict_set_Forall {V} (Q : V → Prop) k v d :
  Q v → Forall (fun kv => Q (snd kv)) d →
  Forall (fun kv => Q (snd kv)) (dict_set k v d).
Proof.
  intros Hv. induction d as [|[k' v'] d IH]; simpl.
  - intros _. by repeat constructor.
  - intros [H1 H2]%Forall_cons. destruct (String.eqb k k'); constructor; auto.
Qed.

(** The constructor builds loaded values only. *)
Lemma construct_sequence_loaded items : ∀ vs,
  Forall (fun n => ∀ v, construct_object n = Ok v → loaded v) items →
  construct_sequence construct_object items = Ok vs →
  Forall loaded vs.
Proof.
  induction items as [|n items IH]; intros vs Hall; simpl.
  - by intros [= <-].
  - apply Forall_cons in Hall as [Hn Hall].
    destruct (construct_object n) as [v|e]; [|done].
    destruct (construct_sequence construct_object items) as [vs'|e]; [|done].
    intros [= <-]. constructor; auto.
Qed.

Lemma construct_mapping_loaded pairs : ∀ mapping d,
  Forall (fun kn => (∀ v, construct_object (fst kn) = Ok v → loaded v) ∧
                    (∀ v, construct_object (snd kn) = Ok v → loaded v)) pairs →
  NoDup (dict_keys mapping) →
  Forall (fun kv => loaded (snd kv)) mapping →
  construct_mapping construct_object mapping pairs = Ok d →
  NoDup (dict_keys d) ∧ Forall (fun kv => loaded (snd kv)) d.
Proof.
  induction pairs as [|[kn vn] pairs IH]; intros mapping d Hall Hnd Hl; simpl.
  - by intros [= <-].
  - apply Forall_cons in Hall as [[_ Hvn] Hall]. simpl in Hvn.
    destruct (construct_object kn) as [[| | |key| | |]|e]; try done.
    destruct (construct_object vn) as [v|e]; [|done].
    apply IH; [done|by apply dict_set_NoDup|]. apply dict_set_Forall; auto.
Qed.

Lemma custom_suffix_Some tag tag_suffix :
  custom_suffix tag = Some tag_suffix → tag = String "!" tag_suffix.
Proof.
  destruct tag as [|c rest]; simpl; [done|].
  destruct (Ascii.eqb_spec c "!") as [->|]; [|done]. by intros [= ->].
Qed.

Lemma construct_loaded n : ∀ v, construct_object n = Ok v → loaded v.
Proof.
  induction n as [tag text|tag items IH|tag pairs IH] using node_ind';
    intros v; simpl.
  - destruct (std_tag_of tag) as [[]|]; simpl; try done.
    + intros [= <-]. constructor.
    + unfold construct_yaml_bool.
      repeat (destruct (_ || _)); intros [= <-]; constructor.
    + unfold construct_yaml_int.
      destruct (NilZero.int_of_string text); [|done].
      destruct (String.eqb _ text); [|done]. intros [= <-]. constructor.
    + intros [= <-]. constructor.
    + destruct (custom_suffix tag) as [sfx|]; [|done].
      intros [= <-]. by repeat constructor.
  - destruct (std_tag_of tag) as [[]|]; simpl; try done.
    + destruct (construct_sequence construct_object items) as [vs|e] eqn:E;
        [|done].
      intros [= <-]. constructor. by eapply construct_sequence_loaded.
    + destruct (custom_suffix tag) as [sfx|]; [|done].
      destruct (construct_sequence construct_object items) as [vs|e] eqn:E;
        [|done].
      intros [= <-]. constructor; [done|].
      constructor. by eapply construct_sequence_loaded.
  - assert (∀ d, construct_mapping construct_object [] pairs = Ok d →
                 loaded (VDict d)) as Hmap.
    { intros d E.
      destruct (construct_mapping_loaded pairs [] d IH) as [Hnd Hl];
        [constructor|constructor|done|]. by constructor. }
    destruct (std_tag_of tag) as [[]|]; simpl; try done.
    + destruct (construct_mapping construct_object [] pairs) as [d|e];
        [|done].
      intros [= <-]. auto.
    + destruct (custom_suffix tag) as [sfx|]; [|done].
      destruct (construct_mapping construct_object [] pairs) as [d|e];
        [|done].
      intros [= <-]. constructor; [done|]. auto.
Qed.

(** A loaded document, and the sections it has. *)
Lemma yaml_load_loaded stream v : yaml_load stream = Ok v → loaded v.
Proof.
  destruct stream as [root|]; simpl.
  - apply construct_loaded.
  - intros [= <-]. constructor.
Qed.

Lemma load_yaml_loaded fs path doc :
  _load_yaml fs path = Ok doc → loaded (VDict doc).
Proof.
  unfold _load_yaml. destruct (dict_get path fs) as [stream|]; [|done].
  destruct (yaml_load stream) as [v|e] eqn:E; [|done].
  apply yaml_load_loaded in E.
  destruct (truthy v).
  - destruct v; try done. by intros [= <-].
  - intros [= <-]. constructor; constructor.
Qed.

Lemma loaded_section_NoDup doc s :
  loaded (VDict doc) → NoDup (item_names doc s).
Proof.
  intros H. inversion H as [| | | | |d Hnd Hall|]; subst.
  unfold item_names, section_items.
  destruct (dict_get s doc) as [v|] eqn:Hget; [|constructor].
  destruct v; try constructor.
  apply dict_get_elem_of in Hget. rewrite Forall_forall in Hall.
  specialize (Hall _ Hget). simpl in Hall. by inversion Hall.
Qed.

(** ** Representing and constructing again *)

Lemma construct_yaml_int_str z : construct_yaml_int (str_of_Z z) = Ok (VInt z).
Proof.
  unfold construct_yaml_int, str_of_Z.
  rewrite NilZero.isi.
  - by rewrite DecimalZ.of_to, String.eqb_refl.
  - destruct z as [|p|p]; simpl; [done| |done].
    intros [= H]. by apply (DecimalPos.Unsigned.to_uint_nonnil p).
  - destruct z as [|p|p]; simpl; [done|done|].
    intros [= H]. by apply (DecimalPos.Unsigned.to_uint_nonnil p).
Qed.

Lemma std_tag_of_custom tag_suffix : std_tag_of (String "!" tag_suffix) = None.
Proof. done. Qed.

Lemma construct_sequence_represent sort_keys l :
  Forall (fun v => construct_object (represent_data sort_keys v) = Ok v) l →
  construct_sequence construct_object (map (represent_data sort_keys) l)
  = Ok l.
Proof.
  induction l as [|v l IH]; simpl; [done|].
  intros [Hv Hl]%Forall_cons. by rewrite Hv, IH.
Qed.

(** Without sorting, the pairs of a represented mapping come back in
    order, after the entries already built. *)
Lemma construct_mapping_represent d : ∀ mapping,
  Forall (fun kv => construct_object (represent_data false (snd kv))
                    = Ok (snd kv)) d →
  NoDup (dict_keys d) →
  (∀ k, k ∈ dict_keys d → k ∉ dict_keys mapping) →
  construct_mapping construct_object mapping
    (map (fun kn => (represent_str (fst kn), snd kn))
       (map (fun kv => (fst kv, represent_data false (snd kv))) d))
  = Ok (mapping ++ d).
Proof.
  induction d as [|[k v] d IH]; intros mapping Hall Hnd Hdisj; simpl.
  - by rewrite app_nil_r.
  - apply Forall_cons in Hall as [Hv Hall]. simpl in Hv. rewrite Hv.
    apply NoDup_cons in Hnd as [Hk Hnd].
    rewrite dict_set_new by (apply Hdisj; left).
    rewrite IH; [by rewrite <- app_assoc|done|done|].
    intros k' Hk'. rewrite dict_keys_app, elem_of_app.
    intros [Hm| ->%list_elem_of_singleton]; [|done].
    apply (Hdisj k'); [by right|done].
Qed.

(** Dumping a loaded value with [sort_keys=False] and loading the result
    gives the value back. *)
Lemma construct_represent v :
  loaded v → construct_object (represent_data false v) = Ok v.
Proof.
  induction v as [|b|z|s|l IH|d IH|tag payload IH] using value_ind';
    intros Hv; inversion Hv; subst; simpl.
  - done.
  - by destruct b.
  - apply construct_yaml_int_str.
  - done.
  - unfold represent_sequence. simpl.
    rewrite construct_sequence_represent; [done|].
    rewrite Forall_forall in *. auto.
  - unfold represent_mapping. simpl.
    rewrite (construct_mapping_represent d []); [done| |done|].
    + rewrite Forall_forall in *. auto.
    + intros k _. apply not_elem_of_nil.
  - specialize (IH ltac:(done)).
    destruct payload; try done; simpl in *.
    + unfold represent_sequence in *. simpl in *.
      destruct (construct_sequence construct_object _); [|done].
      by injection IH as ->.
    + unfold represent_mapping in *. simpl in *.
      destruct (construct_mapping construct_object [] _); [|done].
      by injection IH as ->.
Qed.

(** The file [yaml.dump] writes for a loaded document loads to the same
    document. *)
Lemma load_yaml_dump fs path doc :
  loaded (VDict doc) →
  _load_yaml (dict_set path (yaml_dump false (VDict doc)) fs) path = Ok doc.
Proof.
  intros Hdoc. unfold _load_yaml. rewrite dict_get_set_eq.
  unfold yaml_dump, yaml_load. rewrite construct_represent by done.
  by destruct doc.
Qed.

(** ** Item names of several documents *)

Lemma disjoint_names_spec l1 l2 :
  disjoint_names l1 l2 = true ↔ ∀ k, k ∈ l1 → k ∉ l2.
Proof.
  unfold disjoint_names. rewrite forallb_forall. split.
  - intros H k Hk Hk2. apply list_elem_of_In in Hk. specialize (H k Hk).
    apply negb_true_iff in H.
    assert (existsb (String.eqb k) l2 = true); [|congruence].
    apply existsb_exists. exists k. split; [by apply list_elem_of_In|].
    apply String.eqb_refl.
  - intros H k Hk. apply negb_true_iff.
    destruct (existsb (String.eqb k) l2) eqn:E; [|done].
    apply existsb_exists in E as (k' & Hk' & ->%String.eqb_eq).
    exfalso. apply (H k'); by apply list_elem_of_In.
Qed.

Lemma elem_of_concat {A} (x : A) ls :
  x ∈ concat ls ↔ ∃ l, l ∈ ls ∧ x ∈ l.
Proof.
  induction ls as [|l ls IH]; simpl.
  - split; [by intros ?%elem_of_nil | by intros (? & ?%elem_of_nil & _)].
  - rewrite elem_of_app, IH. split.
    + intros [H|(l' & H1 & H2)]; [exists l; split; [left|done]|].
      exists l'. split; [by right|done].
    + intros (l' & [->|H1]%elem_of_cons & H2); [by left|]. right. eauto.
Qed.

Lemma pairwise_disjoint_NoDup ls :
  Forall NoDup ls → pairwise_disjoint ls = true → NoDup (concat ls).
Proof.
  induction ls as [|l ls IH]; simpl; [constructor|].
  intros [Hl Hls]%Forall_cons [Hd Hp]%andb_true_iff.
  apply NoDup_app. split; [done|]. split; [|auto].
  intros k Hk [l' [Hl' Hk']]%elem_of_concat.
  rewrite forallb_forall in Hd.
  apply list_elem_of_In in Hl'. specialize (Hd l' Hl').
  by apply (proj1 (disjoint_names_spec l l') Hd k).
Qed.

Lemma dict_keys_all_items docs s :
  dict_keys (all_items docs s) = concat (map (fun doc => item_names doc s) docs).
Proof.
  induction docs as [|doc docs IH]; [done|].
  rewrite all_items_cons, dict_keys_app, IH. done.
Qed.

Lemma elem_of_all_items kv docs s :
  kv ∈ all_items docs s ↔ ∃ doc, doc ∈ docs ∧ kv ∈ section_items doc s.
Proof.
  induction docs as [|doc docs IH].
  - split; [by intros ?%elem_of_nil | by intros (? & ?%elem_of_nil & _)].
  - rewrite all_items_cons, elem_of_app, IH. split.
    + intros [H|(doc' & H1 & H2)].
      * exists doc. split; [left|done].
      * exists doc'. split; [by right|done].
    + intros (doc' & [->|H1]%elem_of_cons & H2); [by left|].
      right. by exists doc'.
Qed.

Lemma load_all_loaded fs paths : ∀ docs,
  load_all fs paths = Ok docs → Forall (fun doc => loaded (VDict doc)) docs.
Proof.
  induction paths as [|p rest IH]; intros docs; simpl.
  - by intros [= <-].
  - destruct (_load_yaml fs p) as [doc|e] eqn:E; [|done].
    destruct (load_all fs rest) as [docs'|e']; [|done].
    intros [= <-]. constructor; [by eapply load_yaml_loaded | auto].
Qed.

Lemma disjoint_sources_spec docs :
  disjoint_sources docs = true ↔
  ∀ s, s ∈ SECTIONS →
       pairwise_disjoint (map (fun doc => item_names doc s) docs) = true.
Proof.
  unfold disjoint_sources. rewrite forallb_forall.
  split; intros H s Hs; apply H; by apply list_elem_of_In.
Qed.

(** The item names of loaded documents that are pairwise disjoint make one
    list without repetition. *)
Lemma disjoint_sources_NoDup docs s :
  Forall (fun doc => loaded (VDict doc)) docs →
  disjoint_sources docs = true → s ∈ SECTIONS →
  NoDup (dict_keys (all_items docs s)).
Proof.
  intros Hl Hd Hs. rewrite dict_keys_all_items.
  apply pairwise_disjoint_NoDup.
  - apply Forall_map. eapply Forall_impl; [exact Hl|].
    intros doc Hdoc. by apply loaded_section_NoDup.
  - by apply disjoint_sources_spec.
Qed.

(** ** The properties of the specification *)

(** The merge of valid trees with pairwise disjoint item names, in closed
    form. *)
Lemma tree_merge_disjoint fs fragment_paths base docs :
  loaded (VDict base) →
  load_all fs fragment_paths = Ok docs →
  forallb valid_sections (base :: docs) = true →
  disjoint_sources (base :: docs) = true →
  ∃ merged,
    tree_merge_fragments fs base fragment_paths = Ok merged ∧
    (∀ s, s ∈ SECTIONS →
       section_items merged s = all_items (base :: docs) s ∧
       NoDup (dict_keys (all_items (base :: docs) s))) ∧
    (∀ k, k ∉ SECTIONS → dict_get k merged = dict_get k base).
Proof.
  intros Hbase Hdocs Hvalid Hdisj.
  assert (Forall (fun doc => loaded (VDict doc)) (base :: docs)) as Hloaded.
  { constructor; [done | by eapply load_all_loaded]. }
  rewrite forallb_forall in Hvalid.
  assert (∀ doc, doc ∈ base :: docs → ∀ s, s ∈ SECTIONS → section_valid doc s)
    as Hvalid'.
  { intros doc Hdoc. apply valid_sections_spec, Hvalid.
    by apply list_elem_of_In. }
  assert (∀ s, s ∈ SECTIONS →
            first_duplicate (section_items base s) (all_items docs s) = None)
    as Hfd.
  { intros s Hs. pose proof (disjoint_sources_NoDup _ s Hloaded Hdisj Hs) as Hnd.
    rewrite all_items_cons, dict_keys_app in Hnd.
    apply NoDup_app in Hnd as (_ & Hd & Hnd).
    apply first_duplicate_None. split; [done|]. intros k Hk Hk'.
    by apply (Hd k). }
  destruct (tree_merge_fragments_disjoint fs fragment_paths base docs)
    as [merged Hmerged]; [done| | |done|].
  { apply Hvalid'. left. }
  { apply Forall_forall. intros doc Hdoc. apply Hvalid'. by right. }
  exists merged. split; [done|].
  destruct (tree_merge_fragments_Ok _ _ _ _ Hmerged)
    as (docs' & Hdocs' & _ & Hsec & Hother).
  rewrite Hdocs in Hdocs'. injection Hdocs' as <-.
  split; [|done]. intros s Hs. split.
  - by apply Hsec.
  - by apply disjoint_sources_NoDup.
Qed.

(** C1, amended.  Union property: let the base be loaded with each of its
    top-level mappings an object of its own, which nothing else of the
    base refers to; let the fragments load, let every section that the base
    or a fragment has be a mapping, and let the item names be pairwise
    disjoint in every section.  Then the merge succeeds and every section
    of the merged document holds exactly the items of the base and of the
    fragments, each name with the value it has in the document it comes
    from.  [base] and [h] are the root dictionary of the base and the store
    of its objects, [view h base] the base as a reader sees it; that no
    object is under two keys is [store_wf]. *)
Theorem merge_union fs base h fragment_paths out_path docs :
  store_wf h base →
  loaded (VDict (view h base)) →
  load_all fs fragment_paths = Ok docs →
  forallb valid_sections (view h base :: docs) = true →
  disjoint_sources (view h base :: docs) = true →
  ∃ merged,
    merge_loaded fs base h fragment_paths out_path
    = succeeded merged fs out_path ∧
    ∀ s, s ∈ SECTIONS → ∀ k v,
      dict_get k (section_items merged s) = Some v ↔
      ∃ doc, doc ∈ view h base :: docs ∧
             dict_get k (section_items doc s) = Some v.
Proof.
  intros Hwf Hbase Hdocs Hvalid Hdisj.
  destruct (tree_merge_disjoint fs fragment_paths (view h base) docs
              Hbase Hdocs Hvalid Hdisj)
    as (merged & Hrun & Hsec & _).
  exists merged. split; [by rewrite merge_loaded_tree, Hrun|].
  intros s Hs k v.
  destruct (Hsec s Hs) as [-> Hnd]. split.
  - intros H%dict_get_elem_of. apply elem_of_all_items in H as (doc & Hdoc & H).
    exists doc. split; [done|]. apply dict_get_of_elem; [|done].
    apply loaded_section_NoDup.
    apply elem_of_cons in Hdoc as [->|Hdoc]; [done|].
    pose proof (load_all_loaded _ _ _ Hdocs) as Hl.
    rewrite Forall_forall in Hl. auto.
  - intros (doc & Hdoc & H%dict_get_elem_of).
    apply dict_get_of_elem; [done|]. apply elem_of_all_items. eauto.
Qed.

Lemma merge_union_witness :
  ∃ merged,
    merge_loaded sample_fs sample_base_root sample_base_store
      ["f1.yaml"; "f2.yaml"] "out.yaml"
    = succeeded merged sample_fs "out.yaml" ∧
    ∀ s, s ∈ SECTIONS → ∀ k v,
      dict_get k (section_items merged s) = Some v ↔
      ∃ doc, doc ∈ view sample_base_store sample_base_root
                   :: [sample_doc1; sample_doc2] ∧
             dict_get k (section_items doc s) = Some v.
Proof.
  apply (merge_union sample_fs sample_base_root sample_base_store
           ["f1.yaml"; "f2.yaml"] "out.yaml" [sample_doc1; sample_doc2]).
  - apply sample_base_root_wf.
  - apply (load_yaml_loaded sample_fs "base.yaml"). reflexivity.
  - reflexivity.
  - reflexivity.
  - reflexivity.
Defined.

(** The claim C1 as it is stated fails in two ways.  Against the base of
    [shared_base], whose [Resources] and [Outputs] are one object, the
    fragment [f1.yaml], which adds the resource [Bk] and no output, is
    merged with disjoint names, and the merged [Outputs] holds [Bk], which
    no document has among its outputs.  And the fragment [badbase.yaml],
    whose [Parameters] is a string, shares no item name with the base of
    [bad_fs], yet the run ends with a [SectionTypeError]. *)
Lemma merge_union_counterexample :
  view shared_store shared_base = shared_tree ∧
  load_all sample_fs ["f1.yaml"] = Ok [sample_doc1] ∧
  forallb valid_sections [shared_tree; sample_doc1] = true ∧
  disjoint_sources [shared_tree; sample_doc1] = true ∧
  merge_loaded sample_fs shared_base shared_store ["f1.yaml"] "out.yaml"
  = succeeded
      [("Resources", VDict [("A", VDict [("Type", VStr "X")]);
                            ("Bk", VDict [("Type", VStr "Y")])]);
       ("Outputs", VDict [("A", VDict [("Type", VStr "X")]);
                          ("Bk", VDict [("Type", VStr "Y")])])]
      sample_fs "out.yaml" ∧
  item_names shared_tree "Outputs" = ["A"] ∧
  item_names sample_doc1 "Outputs" = [] ∧
  _load_yaml bad_fs "base.yaml" = Ok sample_base_doc ∧
  load_all bad_fs ["badbase.yaml"]
  = Ok [[("Parameters", VStr "not-a-mapping")]] ∧
  disjoint_sources [sample_base_doc; [("Parameters", VStr "not-a-mapping")]]
  = true ∧
  outcome (merge_templates bad_fs "base.yaml" ["badbase.yaml"] "out.yaml")
  = Err (SectionTypeError "badbase.yaml" "Parameters").
Proof. repeat split; reflexivity. Qed.

(** ** Runs without fragments, failed runs, roots that are not mappings *)

(** The text of the three [ValueError]s, as the program formats it. *)
Example message_load :
  message (LoadError "base.yaml") = "base.yaml must contain a YAML mapping".
Proof. reflexivity. Qed.

Example message_section_type :
  message (SectionTypeError "f1.yaml" "Parameters")
  = "f1.yaml section Parameters must be a mapping".
Proof. reflexivity. Qed.

Example message_duplicate :
  message (DuplicateKeyError "Resources" "A" "f1.yaml")
  = "Duplicate Resources key A in f1.yaml".
Proof. reflexivity. Qed.

(** The three concrete scenarios of the specification. *)
Example scenario_1 :
  dumped (merge_templates sample_fs "base.yaml" ["f1.yaml"; "f2.yaml"]
            "out.yaml")
  = Some (VDict
            [("Description", VStr "sample");
             ("Resources", VDict [("A", VDict [("Type", VStr "X")]);
                                  ("Bk", VDict [("Type", VStr "Y")])]);
             ("Outputs",
              VDict [("O1",
                      VDict [("Value", VTagged "!Ref" (VStr "Bk"))])])]).
Proof. reflexivity. Qed.

Example scenario_2 :
  outcome (merge_templates collision_fs "base.yaml" ["dup1.yaml"] "out.yaml")
  = Err (DuplicateKeyError "Resources" "A" "dup1.yaml").
Proof. reflexivity. Qed.

Example scenario_3 :
  outcome (merge_templates bad_fs "base.yaml" ["bad.yaml"] "out.yaml")
  = Err (SectionTypeError "bad.yaml" "Parameters").
Proof. reflexivity. Qed.

(** With no fragment the base goes to the dumper as it was loaded, and the
    file written loads to it again. *)
Lemma run_without_fragments fs base_path out_path base :
  _load_yaml fs base_path = Ok base →
  merge_templates fs base_path [] out_path = succeeded base fs out_path ∧
  _load_yaml (files (succeeded base fs out_path)) out_path = Ok base.
Proof.
  intros Hbase. split.
  - by rewrite merge_templates_tree, Hbase.
  - apply load_yaml_dump. by eapply load_yaml_loaded.
Qed.

(** C9.  Identity on the empty fragment list: the document handed to the
    dumper is the base as loaded, key for key and tag for tag, and the file
    written loads to that same document. *)
Theorem merge_no_fragments fs base_path out_path base :
  _load_yaml fs base_path = Ok base →
  merge_templates fs base_path [] out_path = succeeded base fs out_path ∧
  _load_yaml (files (merge_templates fs base_path [] out_path)) out_path
  = Ok base.
Proof.
  intros Hbase.
  destruct (run_without_fragments fs base_path out_path base Hbase)
    as [Hrun Hagain].
  split; [done|]. by rewrite Hrun.
Qed.

Lemma merge_no_fragments_witness :
  merge_templates sample_fs "base.yaml" [] "out.yaml"
  = succeeded sample_base_doc sample_fs "out.yaml" ∧
  _load_yaml (files (merge_templates sample_fs "base.yaml" [] "out.yaml"))
    "out.yaml"
  = Ok sample_base_doc.
Proof.
  apply (merge_no_fragments sample_fs "base.yaml" "out.yaml" sample_base_doc).
  reflexivity.
Defined.

(** A node with a custom tag is built by [_construct_tagged]: it loads
    when the node without the tag loads, to a [Tagged] of the tag and of
    what that node loads to. *)
Lemma construct_custom n tag_suffix :
  node_tag n = String "!" tag_suffix →
  construct_object n =
  match construct_object (untagged n) with
  | Ok payload => Ok (VTagged (String "!" tag_suffix) payload)
  | Err e => Err e
  end.
Proof.
  destruct n as [tag text|tag items|tag pairs]; simpl; intros ->;
    rewrite std_tag_of_custom; simpl.
  - done.
  - by destruct (construct_sequence construct_object items).
  - by destruct (construct_mapping construct_object [] pairs).
Qed.

Lemma construct_sequence_Forall2 items : ∀ l,
  construct_sequence construct_object items = Ok l ↔
  Forall2 (fun item v => construct_object item = Ok v) items l.
Proof.
  induction items as [|n items IH]; intros l; simpl.
  - split; [intros [= <-]; constructor | by intros ->%Forall2_nil_inv_l].
  - split.
    + destruct (construct_object n) as [v|e] eqn:E; [|done].
      destruct (construct_sequence construct_object items) as [vs|e]; [|done].
      intros [= <-]. constructor; [done|]. by apply IH.
    + intros (v & vs & Hv & Hvs & ->)%Forall2_cons_inv_l.
      rewrite Hv. apply IH in Hvs. by rewrite Hvs.
Qed.

Lemma construct_untagged n payload :
  construct_object (untagged n) = Ok payload → payload_of n payload.
Proof.
  destruct n as [tag text|tag items|tag pairs]; simpl.
  - by intros [= <-].
  - destruct (construct_sequence construct_object items) as [l|e] eqn:E;
      [|done].
    intros [= <-]. exists l. split; [done|]. by apply construct_sequence_Forall2.
  - destruct (construct_mapping construct_object [] pairs) as [d|e]; [|done].
    intros [= <-]. by exists d.
Qed.

(** The key a key node stands for. *)
Lemma construct_key key_node key k :
  construct_object key_node = Ok (VStr key) →
  is_key k key_node = String.eqb key k.
Proof.
  destruct key_node as [tag text|tag items|tag pairs]; simpl.
  - destruct (std_tag_of tag) as [[]|]; simpl; try done.
    + unfold construct_yaml_bool. by repeat (destruct (_ || _)).
    + unfold construct_yaml_int.
      destruct (NilZero.int_of_string text); [|done].
      by destruct (String.eqb _ text).
    + by intros [= ->].
    + by destruct (custom_suffix tag).
  - destruct (std_tag_of tag) as [[]|]; simpl; try done.
    + by destruct (construct_sequence construct_object items).
    + destruct (custom_suffix tag); [|done].
      by destruct (construct_sequence construct_object items).
  - destruct (std_tag_of tag) as [[]|]; simpl; try done.
    + by destruct (construct_mapping construct_object [] pairs).
    + destruct (custom_suffix tag); [|done].
      by destruct (construct_mapping construct_object [] pairs).
Qed.

(** What the dictionary built from the pairs of a mapping node holds under
    a key: the value of the node [pair_get] finds, or what it held
    before. *)
Lemma construct_mapping_get k pairs : ∀ mapping d,
  construct_mapping construct_object mapping pairs = Ok d →
  match pair_get k pairs with
  | Some m => ∃ w, construct_object m = Ok w ∧ dict_get k d = Some w
  | None => dict_get k d = dict_get k mapping
  end.
Proof.
  induction pairs as [|[kn vn] pairs IH]; intros mapping d; simpl.
  - by intros [= <-].
  - destruct (construct_object kn) as [[| | |key| | |]|e] eqn:Ekn; try done.
    destruct (construct_object vn) as [v|e] eqn:Evn; [|done].
    intros H. specialize (IH _ _ H).
    destruct (pair_get k pairs) as [m|]; [done|].
    rewrite (construct_key kn key k Ekn).
    destruct (String.eqb_spec key k) as [->|Hne].
    + exists v. split; [done|]. by rewrite IH, dict_get_set_eq.
    + rewrite IH. apply dict_get_set_ne. congruence.
Qed.

(** The node at a place of a document that loads is built into the value
    at that place. *)
Lemma construct_at path : ∀ n v m,
  construct_object n = Ok v →
  node_at path n = Some m →
  ∃ w, construct_object m = Ok w ∧ value_at path v = Some w.
Proof.
  induction path as [|[k|i|] rest IH]; intros n v m Hn; simpl.
  - intros [= <-]. by exists v.
  - destruct n as [tag text|tag items|tag pairs]; try done.
    simpl in Hn.
    destruct (std_tag_of tag) as [[]|]; try done. simpl in Hn.
    destruct (construct_mapping construct_object [] pairs) as [d|e] eqn:E;
      [|done].
    injection Hn as <-.
    pose proof (construct_mapping_get k pairs [] d E) as Hget.
    destruct (pair_get k pairs) as [m'|]; [|done].
    destruct Hget as (w & Hw & ->). intros Hat. by eapply IH.
  - destruct n as [tag text|tag items|tag pairs]; try done.
    simpl in Hn.
    destruct (std_tag_of tag) as [[]|]; try done. simpl in Hn.
    destruct (construct_sequence construct_object items) as [l|e] eqn:E;
      [|done].
    injection Hn as <-.
    apply construct_sequence_Forall2 in E.
    destruct (items !! i) as [m'|] eqn:Hi; [|done].
    destruct (Forall2_lookup_l _ _ _ _ _ E Hi) as (w & -> & Hw).
    intros Hat. by eapply IH.
  - destruct (std_tag_of (node_tag n)) eqn:Estd; [done|].
    destruct (custom_suffix (node_tag n)) as [sfx|] eqn:Ecus; [|done].
    apply custom_suffix_Some in Ecus.
    rewrite (construct_custom n sfx Ecus) in Hn.
    destruct (construct_object (untagged n)) as [payload|e] eqn:E; [|done].
    injection Hn as <-. intros Hat. by eapply IH.
Qed.

(** A value that is false in Python has nothing inside. *)
Lemma value_at_falsy path v w :
  truthy v = false → value_at path v = Some w → w = v.
Proof.
  destruct path as [|st rest]; simpl; [by intros _ [= ->]|].
  destruct v as [|b|z|t|l|d|tag payload]; destruct st; try done.
  - by destruct l.
  - by destruct d.
Qed.

(** C6.  Tag round trip: let the document of the base hold, at any place
    and at any depth, a node with a custom tag, and let the document load.
    After the merge with no fragment, the dump and the load of the output,
    the value at that place is a [Tagged] with the tag of the node,
    character for character, and with the payload the node gives: the text
    of a scalar as a [str], the values of the items of a sequence as a
    [list], the dictionary of the pairs of a mapping as a [dict], nodes
    with custom tags among them included. *)
Theorem tag_round_trip fs base_path out_path root base path n tag_suffix :
  dict_get base_path fs = Some (Some root) →
  _load_yaml fs base_path = Ok base →
  node_at path root = Some n →
  node_tag n = String "!" tag_suffix →
  ∃ payload again,
    payload_of n payload ∧
    outcome (merge_templates fs base_path [] out_path) = Ok tt ∧
    _load_yaml (files (merge_templates fs base_path [] out_path)) out_path
    = Ok again ∧
    value_at path (VDict again)
    = Some (VTagged (String "!" tag_suffix) payload).
Proof.
  intros Hfile Hbase Hat Htag.
  destruct (run_without_fragments fs base_path out_path base Hbase)
    as [Hrun Hagain].
  rewrite Hrun.
  assert (∃ v, construct_object root = Ok v ∧
               VDict base = (if truthy v then v else VDict [])) as (v & Hv & Hd).
  { unfold _load_yaml in Hbase. rewrite Hfile in Hbase. simpl in Hbase.
    destruct (construct_object root) as [v|e]; [|done].
    exists v. split; [done|].
    destruct (if truthy v then v else VDict []); try done.
    by injection Hbase as ->. }
  destruct (construct_at path root v n Hv Hat) as (w & Hw & Hpath).
  rewrite (construct_custom n tag_suffix Htag) in Hw.
  destruct (construct_object (untagged n)) as [payload|e] eqn:E; [|done].
  injection Hw as <-.
  exists payload, base. split; [by apply construct_untagged|].
  split; [done|]. split; [done|].
  destruct (truthy v) eqn:Ht; [by rewrite Hd|].
  apply (value_at_falsy _ _ _ Ht) in Hpath. by rewrite <- Hpath in Ht.
Qed.

Lemma tag_round_trip_witness :
  ∃ payload again,
    payload_of tagged_join payload ∧
    outcome (merge_templates tagged_fs "tags.yaml" [] "out.yaml") = Ok tt ∧
    _load_yaml (files (merge_templates tagged_fs "tags.yaml" [] "out.yaml"))
      "out.yaml"
    = Ok again ∧
    value_at [Key "Outputs"; Key "O1"; Key "Value"] (VDict again)
    = Some (VTagged "!Join" payload).
Proof.
  apply (tag_round_trip tagged_fs "tags.yaml" "out.yaml"
           (mapping_node
              [("Outputs",
                mapping_node [("O1", mapping_node [("Value", tagged_join)])])])
           [("Outputs",
             VDict
               [("O1",
                 VDict
                   [("Value",
                     VTagged "!Join"
                       (VList
                          [VStr ",";
                           VList
                             [VTagged "!Ref" (VStr "A");
                              VTagged "!GetAtt"
                                (VDict
                                   [("Name", VStr "B");
                                    ("Attr",
                                     VTagged "!Sub" (VStr "${C}"))])]]))])])]
           [Key "Outputs"; Key "O1"; Key "Value"] tagged_join "Join").
  - reflexivity.
  - reflexivity.
  - reflexivity.
  - reflexivity.
Defined.

(** The sample of the witness, in full: the sequence tagged [!Join] comes
    back with the scalar tagged [!Ref] and the mapping tagged [!GetAtt]
    inside it, and the scalar tagged [!Sub] inside that mapping. *)
Example nested_tags_come_back :
  ∃ again,
    _load_yaml (files (merge_templates tagged_fs "tags.yaml" [] "out.yaml"))
      "out.yaml"
    = Ok again ∧
    value_at [Key "Outputs"; Key "O1"; Key "Value"] (VDict again)
    = Some (VTagged "!Join"
              (VList
                 [VStr ",";
                  VList
                    [VTagged "!Ref" (VStr "A");
                     VTagged "!GetAtt"
                       (VDict [("Name", VStr "B");
                               ("Attr", VTagged "!Sub" (VStr "${C}"))])]])) ∧
    node_at [Key "Outputs"; Key "O1"; Key "Value"; Payload; Index 1; Index 1;
             Payload; Key "Attr"]
      (mapping_node
         [("Outputs",
           mapping_node [("O1", mapping_node [("Value", tagged_join)])])])
    = Some (ScalarNode "!Sub" "${C}") ∧
    value_at [Key "Outputs"; Key "O1"; Key "Value"; Payload; Index 1; Index 1;
              Payload; Key "Attr"] (VDict again)
    = Some (VTagged "!Sub" (VStr "${C}")).
Proof. eexists. repeat split; reflexivity. Qed.

(** C8.  Failure atomicity: a run that ends with an exception, whichever it
    is, has handed nothing to the dumper and has left the files as they
    were. *)
Theorem failure_writes_nothing fs base_path fragment_paths out_path e :
  outcome (merge_templates fs base_path fragment_paths out_path) = Err e →
  files (merge_templates fs base_path fragment_paths out_path) = fs ∧
  dumped (merge_templates fs base_path fragment_paths out_path) = None.
Proof.
  rewrite merge_templates_tree.
  destruct (_load_yaml fs base_path) as [base|e']; [|done].
  by destruct (tree_merge_fragments fs base fragment_paths).
Qed.

Lemma failure_writes_nothing_witness :
  files (merge_templates sample_fs "base.yaml" ["f1.yaml"; "f1.yaml"]
           "out.yaml") = sample_fs ∧
  dumped (merge_templates sample_fs "base.yaml" ["f1.yaml"; "f1.yaml"]
            "out.yaml") = None.
Proof.
  apply (failure_writes_nothing sample_fs "base.yaml" ["f1.yaml"; "f1.yaml"]
           "out.yaml" (DuplicateKeyError "Resources" "Bk" "f1.yaml")).
  reflexivity.
Defined.

(** [_load_yaml] raises its [ValueError] exactly for the roots that are
    true in Python and are not dictionaries. *)
Lemma load_yaml_LoadError fs path stream root :
  dict_get path fs = Some stream →
  yaml_load stream = Ok root →
  _load_yaml fs path = Err (LoadError path) ↔
  truthy root = true ∧ is_dict root = false.
Proof.
  intros Hfile Hroot. unfold _load_yaml. rewrite Hfile, Hroot.
  destruct (truthy root) eqn:Ht.
  - destruct root; simpl; split; try done; by intros [_ ?].
  - split; [done|]. by intros [? _].
Qed.

(** C4.  [_load_yaml] on documents whose root is not a mapping: a root
    that is false in Python (an empty sequence, an empty string, zero,
    [false]) is replaced by an empty mapping and no [LoadError] is raised;
    a non-empty sequence is refused. *)
Theorem load_yaml_falsy_root :
  _load_yaml falsy_fs "seq.yaml" = Ok [] ∧
  _load_yaml falsy_fs "str.yaml" = Ok [] ∧
  _load_yaml falsy_fs "int.yaml" = Ok [] ∧
  _load_yaml falsy_fs "bool.yaml" = Ok [] ∧
  _load_yaml falsy_fs "list.yaml" = Err (LoadError "list.yaml").
Proof. repeat split; reflexivity. Qed.
(** ** Keys that are not sections *)

(** [_merge_section] reads its source under the section name only,
    whatever the root dictionary and the store. *)
Lemma merge_sections_same data data' fragment sections : ∀ merged h,
  Forall (fun s => dict_get s data' = dict_get s data) sections →
  merge_sections merged data' fragment sections h
  = merge_sections merged data fragment sections h.
Proof.
  induction sections as [|s rest IH]; intros merged h Hsame; simpl; [done|].
  apply Forall_cons in Hsame as [Hs Hrest].
  assert (_merge_section merged data' s fragment
          = _merge_section merged data s fragment) as ->.
  { unfold _merge_section. by rewrite Hs. }
  unfold bind.
  destruct (_merge_section merged data s fragment h) as [[m|e] h1]; [|done].
  by apply IH.
Qed.

Lemma merge_fragments_same fs fs' fragment_paths : ∀ merged h docs docs',
  load_all fs fragment_paths = Ok docs →
  load_all fs' fragment_paths = Ok docs' →
  Forall2 same_sections docs docs' →
  merge_fragments fs' merged fragment_paths h
  = merge_fragments fs merged fragment_paths h.
Proof.
  induction fragment_paths as [|p rest IH]; intros merged h docs docs';
    cbn [merge_fragments load_all]; [done|].
  destruct (_load_yaml fs p) as [data|e]; [|done].
  destruct (_load_yaml fs' p) as [data'|e']; [|done].
  destruct (load_all fs rest) as [ds|e] eqn:E; [|done].
  destruct (load_all fs' rest) as [ds'|e'] eqn:E'; [|done].
  intros [= <-] [= <-] Hsame.
  apply Forall2_cons in Hsame as [Hd Hds].
  unfold bind.
  rewrite (merge_sections_same data data' p SECTIONS merged h Hd).
  destruct (merge_sections merged data p SECTIONS h) as [[m|e] h1]; [|done].
  by eapply IH.
Qed.

(** C7, amended.  Pass-through of what is not a section.  What the
    fragments hold under keys other than the four section names is never
    looked at: two sets of fragments that load and agree on their four
    sections give runs that end alike and dump the same document, whatever
    the base.  And when the base is loaded with each of its top-level
    mappings an object of its own, which nothing else of the base refers
    to ([store_wf]), a run that succeeds dumps a document that has, under
    every key other than the four section names, what the base has under
    it. *)
Theorem non_section_keys fs fs' base h fragment_paths out_path docs docs' :
  load_all fs fragment_paths = Ok docs →
  load_all fs' fragment_paths = Ok docs' →
  Forall2 same_sections docs docs' →
  outcome (merge_loaded fs' base h fragment_paths out_path)
  = outcome (merge_loaded fs base h fragment_paths out_path) ∧
  dumped (merge_loaded fs' base h fragment_paths out_path)
  = dumped (merge_loaded fs base h fragment_paths out_path) ∧
  (store_wf h base →
   outcome (merge_loaded fs base h fragment_paths out_path) = Ok tt →
   ∃ merged,
     dumped (merge_loaded fs base h fragment_paths out_path)
     = Some (VDict merged) ∧
     ∀ k, k ∉ SECTIONS → dict_get k merged = dict_get k (view h base)).
Proof.
  intros Hdocs Hdocs' Hsame.
  assert (merge_fragments fs' base fragment_paths h
          = merge_fragments fs base fragment_paths h) as Hrun.
  { by eapply merge_fragments_same. }
  split; [|split].
  - unfold merge_loaded. rewrite Hrun.
    by destruct (merge_fragments fs base fragment_paths h) as [[m|e] h1].
  - unfold merge_loaded. rewrite Hrun.
    by destruct (merge_fragments fs base fragment_paths h) as [[m|e] h1].
  - intros Hwf. rewrite merge_loaded_tree by done.
    destruct (tree_merge_fragments fs (view h base) fragment_paths)
      as [m|e] eqn:E; [|done].
    intros _. exists m. split; [done|].
    destruct (tree_merge_fragments_Ok _ _ _ _ E) as (_ & _ & _ & _ & Hother).
    done.
Qed.

Lemma non_section_keys_witness :
  outcome (merge_loaded sample_fs_extra sample_base_root sample_base_store
             ["f1.yaml"; "f2.yaml"] "out.yaml")
  = outcome (merge_loaded sample_fs sample_base_root sample_base_store
               ["f1.yaml"; "f2.yaml"] "out.yaml") ∧
  dumped (merge_loaded sample_fs_extra sample_base_root sample_base_store
            ["f1.yaml"; "f2.yaml"] "out.yaml")
  = dumped (merge_loaded sample_fs sample_base_root sample_base_store
              ["f1.yaml"; "f2.yaml"] "out.yaml") ∧
  ∃ merged,
    dumped (merge_loaded sample_fs sample_base_root sample_base_store
              ["f1.yaml"; "f2.yaml"] "out.yaml")
    = Some (VDict merged) ∧
    ∀ k, k ∉ SECTIONS →
         dict_get k merged
         = dict_get k (view sample_base_store sample_base_root).
Proof.
  destruct (non_section_keys sample_fs sample_fs_extra sample_base_root
              sample_base_store ["f1.yaml"; "f2.yaml"] "out.yaml"
              [sample_doc1; sample_doc2] [sample_doc1_extra; sample_doc2])
    as (Hend & Hdump & Hkeys).
  - reflexivity.
  - reflexivity.
  - repeat constructor.
  - split; [exact Hend|]. split; [exact Hdump|].
    apply Hkeys; [apply sample_base_root_wf | reflexivity].
Defined.

(** The claim C7 as it is stated fails against the base of
    [shared_meta_base], whose [Metadata] and [Resources] are one object:
    merging [f1.yaml], which adds the resource [Bk], succeeds, and the
    document dumped has [Bk] under [Metadata] too. *)
Lemma non_section_keys_counterexample :
  ("Metadata" ∉ SECTIONS) ∧
  dict_get "Metadata" (view shared_store shared_meta_base)
  = Some (VDict [("A", VDict [("Type", VStr "X")])]) ∧
  _load_yaml sample_fs "f1.yaml" = Ok sample_doc1 ∧
  outcome (merge_loaded sample_fs shared_meta_base shared_store ["f1.yaml"]
             "out.yaml")
  = Ok tt ∧
  dumped (merge_loaded sample_fs shared_meta_base shared_store ["f1.yaml"]
            "out.yaml")
  = Some (VDict
            [("Metadata", VDict [("A", VDict [("Type", VStr "X")]);
                                 ("Bk", VDict [("Type", VStr "Y")])]);
             ("Resources", VDict [("A", VDict [("Type", VStr "X")]);
                                  ("Bk", VDict [("Type", VStr "Y")])])]).
Proof.
  split; [apply (bool_decide_unpack _); by vm_compute|].
  repeat split; reflexivity.
Qed.

(** ** Order of the items *)

(** A section that is a mapping stays one and grows at its end. *)
Lemma tree_merge_section_dict dest src section path dest' d :
  tree_merge_section dest src section path = Ok dest' →
  dict_get section dest = Some (VDict d) →
  dict_get section dest'
  = Some (VDict (d ++ section_items src section)).
Proof.
  intros H Hdest. destruct (dict_get section src) as [v|] eqn:Hsrc.
  - destruct v; try (unfold tree_merge_section in H; by rewrite Hsrc in H).
    rewrite (tree_merge_section_valid _ _ _ _ entries) in H;
      [|unfold section_valid; by rewrite Hdest|done].
    rewrite (section_items_dict dest _ _ Hdest) in H.
    destruct (first_duplicate d entries); [done|]. injection H as <-.
    by rewrite dict_get_set_eq, (section_items_dict src _ _ Hsrc).
  - unfold tree_merge_section in H. rewrite Hsrc in H. injection H as <-.
    by rewrite (section_items_absent src), app_nil_r.
Qed.

Lemma tree_merge_sections_dict data fragment sections : ∀ merged merged' s d,
  NoDup sections → s ∈ sections →
  tree_merge_sections merged data fragment sections = Ok merged' →
  dict_get s merged = Some (VDict d) →
  dict_get s merged' = Some (VDict (d ++ section_items data s)).
Proof.
  induction sections as [|s0 rest IH]; intros merged merged' s d Hnd Hs; simpl.
  - by apply elem_of_nil in Hs.
  - apply NoDup_cons in Hnd as [Hs0 Hnd].
    destruct (tree_merge_section merged data s0 fragment) as [m1|e] eqn:E1;
      [|done].
    intros H Hget. apply elem_of_cons in Hs as [->|Hs].
    + destruct (tree_merge_sections_Ok _ _ _ _ _ Hnd H) as [_ Hother].
      rewrite (Hother s0 Hs0). by eapply tree_merge_section_dict.
    + apply (IH m1); [done|done|done|].
      destruct (tree_merge_section_Ok _ _ _ _ _ E1) as (_ & _ & _ & Hne & _).
      rewrite Hne; [done|]. by intros ->.
Qed.

Lemma tree_merge_fragments_dict fs fragment_paths : ∀ merged merged' docs s d,
  s ∈ SECTIONS →
  tree_merge_fragments fs merged fragment_paths = Ok merged' →
  load_all fs fragment_paths = Ok docs →
  dict_get s merged = Some (VDict d) →
  dict_get s merged' = Some (VDict (d ++ all_items docs s)).
Proof.
  induction fragment_paths as [|p rest IH]; intros merged merged' docs s d Hs;
    cbn [tree_merge_fragments load_all].
  - intros [= <-] [= <-] ->. simpl. by rewrite app_nil_r.
  - destruct (_load_yaml fs p) as [data|e]; [|done].
    destruct (tree_merge_sections merged data p SECTIONS) as [m1|e] eqn:E1;
      [|done].
    destruct (load_all fs rest) as [docs'|e] eqn:Hload; [|done].
    intros H [= <-] Hget.
    rewrite all_items_cons, app_assoc.
    apply (IH m1); [done|done|done|].
    by eapply tree_merge_sections_dict; [apply NoDup_SECTIONS|..].
Qed.

(** With [sort_keys=False] a mapping is represented key by key, in its own
    order. *)
Lemma node_keys_represent d :
  node_keys (represent_data false (VDict d)) = dict_keys d.
Proof.
  simpl. unfold represent_mapping. simpl.
  induction d as [|[k v] d IH]; simpl; [done|]. by rewrite IH.
Qed.

Lemma node_get_represent k d :
  node_get k (represent_data false (VDict d))
  = represent_data false <$> dict_get k d.
Proof.
  simpl. unfold represent_mapping. simpl.
  induction d as [|[k' v] d IH]; simpl; [done|].
  by destruct (String.eqb k k').
Qed.

(** C5, amended.  Order preservation: let the base be loaded with each of
    its top-level mappings an object of its own, which nothing else of the
    base refers to ([store_wf]), and let the base and two fragments all
    hold a section as a mapping.  When the merge succeeds, the merged
    section lists the items of the base in the base's order, then those of
    the first fragment in its order, then those of the second in its order;
    the dumper is called with [sort_keys=False], and the document it writes
    lists the keys of the document and of the section in that same order. *)
Theorem merge_order fs base h p1 p2 out_path doc1 doc2 s d0 d1 d2 :
  store_wf h base →
  _load_yaml fs p1 = Ok doc1 →
  _load_yaml fs p2 = Ok doc2 →
  s ∈ SECTIONS →
  dict_get s (view h base) = Some (VDict d0) →
  dict_get s doc1 = Some (VDict d1) →
  dict_get s doc2 = Some (VDict d2) →
  outcome (merge_loaded fs base h [p1; p2] out_path) = Ok tt →
  ∃ merged out section_node,
    dumped (merge_loaded fs base h [p1; p2] out_path) = Some (VDict merged) ∧
    dict_get s merged = Some (VDict (d0 ++ d1 ++ d2)) ∧
    dict_get out_path (files (merge_loaded fs base h [p1; p2] out_path))
    = Some (Some out) ∧
    out = represent_data false (VDict merged) ∧
    node_keys out = dict_keys merged ∧
    node_get s out = Some section_node ∧
    node_keys section_node = dict_keys d0 ++ dict_keys d1 ++ dict_keys d2.
Proof.
  intros Hwf H1 H2 Hs Hd0 Hd1 Hd2.
  rewrite merge_loaded_tree by done.
  destruct (tree_merge_fragments fs (view h base) [p1; p2]) as [merged|e] eqn:E;
    [|done].
  intros _.
  assert (dict_get s merged = Some (VDict (d0 ++ d1 ++ d2))) as Hget.
  { rewrite (tree_merge_fragments_dict fs [p1; p2] (view h base) merged
               [doc1; doc2] s d0 Hs E); [| |done].
    - unfold all_items. simpl.
      by rewrite (section_items_dict _ _ _ Hd1),
                 (section_items_dict _ _ _ Hd2), app_nil_r.
    - simpl. by rewrite H1, H2. }
  exists merged, (represent_data false (VDict merged)),
    (represent_data false (VDict (d0 ++ d1 ++ d2))).
  split; [done|]. split; [done|].
  split; [cbn [files succeeded]; by rewrite dict_get_set_eq|]. split; [done|].
  split; [apply node_keys_represent|].
  split.
  - by rewrite node_get_represent, Hget.
  - by rewrite node_keys_represent, !dict_keys_app.
Qed.

Lemma merge_order_witness :
  ∃ merged out section_node,
    dumped (merge_loaded sample_fs sample_base_root sample_base_store
              ["f1.yaml"; "f3.yaml"] "out.yaml")
    = Some (VDict merged) ∧
    dict_get "Resources" merged
    = Some (VDict ([("A", VDict [("Type", VStr "X")])]
                   ++ [("Bk", VDict [("Type", VStr "Y")])]
                   ++ [("Ck", VDict [("Type", VStr "Z")]);
                       ("Aa", VDict [("Type", VStr "W")])])) ∧
    dict_get "out.yaml"
      (files (merge_loaded sample_fs sample_base_root sample_base_store
                ["f1.yaml"; "f3.yaml"] "out.yaml"))
    = Some (Some out) ∧
    out = represent_data false (VDict merged) ∧
    node_keys out = dict_keys merged ∧
    node_get "Resources" out = Some section_node ∧
    node_keys section_node
    = dict_keys [("A", VDict [("Type", VStr "X")])]
      ++ dict_keys [("Bk", VDict [("Type", VStr "Y")])]
      ++ dict_keys [("Ck", VDict [("Type", VStr "Z")]);
                    ("Aa", VDict [("Type", VStr "W")])].
Proof.
  apply (merge_order sample_fs sample_base_root sample_base_store
           "f1.yaml" "f3.yaml" "out.yaml" sample_doc1 sample_doc3 "Resources").
  - apply sample_base_root_wf.
  - reflexivity.
  - reflexivity.
  - apply (bool_decide_unpack _). by vm_compute.
  - reflexivity.
  - reflexivity.
  - reflexivity.
  - reflexivity.
Defined.

(** The claim C5 as it is stated fails against the base of [shared_base],
    whose [Resources] and [Outputs] are one object holding [A].  The
    fragments [g1.yaml] and [g2.yaml] hold the resources [B1] and [B2] and
    the outputs [C1] and [C2]; the merge succeeds, and the merged
    [Resources], like the node written for it, lists [A], [B1], [C1], [B2],
    [C2], where the keys of the base and of the two fragments are [A], [B1],
    [B2]. *)
Lemma merge_order_counterexample :
  dict_get "Resources" (view shared_store shared_base)
  = Some (VDict [("A", VDict [("Type", VStr "X")])]) ∧
  _load_yaml both_fs "g1.yaml" = Ok both_doc1 ∧
  _load_yaml both_fs "g2.yaml" = Ok both_doc2 ∧
  item_names both_doc1 "Resources" = ["B1"] ∧
  item_names both_doc2 "Resources" = ["B2"] ∧
  outcome (merge_loaded both_fs shared_base shared_store
             ["g1.yaml"; "g2.yaml"] "out.yaml")
  = Ok tt ∧
  dumped (merge_loaded both_fs shared_base shared_store
            ["g1.yaml"; "g2.yaml"] "out.yaml")
  = Some (VDict
            [("Resources",
              VDict [("A", VDict [("Type", VStr "X")]);
                     ("B1", VDict [("Type", VStr "Y")]);
                     ("C1", VDict [("Value", VStr "c")]);
                     ("B2", VDict [("Type", VStr "Y")]);
                     ("C2", VDict [("Value", VStr "c")])]);
             ("Outputs",
              VDict [("A", VDict [("Type", VStr "X")]);
                     ("B1", VDict [("Type", VStr "Y")]);
                     ("C1", VDict [("Value", VStr "c")]);
                     ("B2", VDict [("Type", VStr "Y")]);
                     ("C2", VDict [("Value", VStr "c")])])]) ∧
  (∃ out section_node,
     dict_get "out.yaml"
       (files (merge_loaded both_fs shared_base shared_store
                 ["g1.yaml"; "g2.yaml"] "out.yaml"))
     = Some (Some out) ∧
     node_get "Resources" out = Some section_node ∧
     node_keys section_node = ["A"; "B1"; "C1"; "B2"; "C2"]).
Proof.
  repeat split; try reflexivity.
  eexists _, _. repeat split; reflexivity.
Qed.

(** With the default [sort_keys=True] the same section would be written
    with its keys sorted, the order of insertion lost. *)
Example sorted_dump_reorders :
  node_keys (represent_data true
               (VDict [("A", VNone); ("Bk", VNone); ("Ck", VNone);
                       ("Aa", VNone)]))
  = ["A"; "Aa"; "Bk"; "Ck"].
Proof. reflexivity. Qed.

(** ** Collisions *)

Lemma load_all_app fs pre post docs :
  load_all fs (pre ++ post) = Ok docs →
  ∃ docs1 docs2,
    docs = docs1 ++ docs2 ∧
    load_all fs pre = Ok docs1 ∧ load_all fs post = Ok docs2.
Proof.
  revert docs. induction pre as [|p pre IH]; intros docs; simpl.
  - intros H. by exists [], docs.
  - destruct (_load_yaml fs p) as [doc|e]; [|done].
    destruct (load_all fs (pre ++ post)) as [ds|e] eqn:E; [|done].
    intros [= <-]. destruct (IH ds eq_refl) as (d1 & d2 & -> & -> & ->).
    by exists (doc :: d1), d2.
Qed.


Lemma elem_of_all_items_keys k docs s :
  k ∈ dict_keys (all_items docs s) ↔
  ∃ doc, doc ∈ docs ∧ k ∈ item_names doc s.
Proof.
  rewrite dict_keys_all_items, elem_of_concat. split.
  - intros (l & Hl & Hk). apply list_elem_of_In, in_map_iff in Hl
      as (doc & <- & Hdoc). exists doc. split; [by apply list_elem_of_In|done].
  - intros (doc & Hdoc & Hk). exists (item_names doc s). split; [|done].
    apply list_elem_of_In, in_map_iff. exists doc.
    split; [done|by apply list_elem_of_In].
Qed.












(** ** The base after the merge *)


















(** ** Further properties of the loader and the dumper *)

(** X2.  Dumping and loading again is the identity on everything the
    loader builds: the value constructed from a node, represented with
    [sort_keys=False] and constructed again, is the same value, whatever
    mix of scalars, lists, dictionaries and [Tagged] values it holds. *)
Theorem dump_load_identity n v :
  construct_object n = Ok v →
  construct_object (represent_data false v) = Ok v.
Proof. intros H. by apply construct_represent, (construct_loaded n). Qed.

Lemma dump_load_identity_witness :
  construct_object (represent_data false (VDict sample_doc2))
  = Ok (VDict sample_doc2).
Proof. apply (dump_load_identity sample_fragment2). reflexivity. Defined.

(** X3.  What [_load_yaml] returns is well formed at every depth: no
    dictionary holds a key twice, every [Tagged] has a tag that starts with
    ["!"] and a payload that is a [str], a [list] or a [dict]; in
    particular no section of a loaded document names an item twice. *)
Theorem load_yaml_well_formed fs path doc :
  _load_yaml fs path = Ok doc →
  loaded (VDict doc) ∧
  NoDup (dict_keys doc) ∧
  ∀ s, NoDup (item_names doc s).
Proof.
  intros H. pose proof (load_yaml_loaded _ _ _ H) as Hl.
  split; [done|]. split; [by inversion Hl|].
  intros s. by apply loaded_section_NoDup.
Qed.

Lemma load_yaml_well_formed_witness :
  loaded (VDict sample_base_doc) ∧
  NoDup (dict_keys sample_base_doc) ∧
  ∀ s, NoDup (item_names sample_base_doc s).
Proof.
  apply (load_yaml_well_formed sample_fs "base.yaml"). reflexivity.
Defined.

(** X4.  The three ways [_load_yaml] ends on a file that parses: a root
    that is false in Python gives the empty dictionary, a dictionary is
    returned as it is, and the [ValueError] is raised exactly for the roots
    that are true and are not dictionaries. *)
Theorem load_yaml_cases fs path stream root :
  dict_get path fs = Some stream →
  yaml_load stream = Ok root →
  (truthy root = false → _load_yaml fs path = Ok []) ∧
  (∀ d, root = VDict d → _load_yaml fs path = Ok d) ∧
  (_load_yaml fs path = Err (LoadError path) ↔
   truthy root = true ∧ is_dict root = false).
Proof.
  intros Hfile Hroot. unfold _load_yaml. rewrite Hfile, Hroot.
  split; [by intros ->|]. split.
  - intros d ->. by destruct d.
  - destruct (truthy root) eqn:Ht.
    + destruct root; simpl; split; try done; by intros [_ ?].
    + split; [done|]. by intros [? _].
Qed.

Lemma load_yaml_cases_witness :
  (truthy (VList [VStr "a"]) = false → _load_yaml falsy_fs "list.yaml" = Ok []) ∧
  (∀ d, VList [VStr "a"] = VDict d → _load_yaml falsy_fs "list.yaml" = Ok d) ∧
  (_load_yaml falsy_fs "list.yaml" = Err (LoadError "list.yaml") ↔
   truthy (VList [VStr "a"]) = true ∧ is_dict (VList [VStr "a"]) = false).
Proof.
  apply (load_yaml_cases falsy_fs "list.yaml"
           (Some (SequenceNode tag_seq [str_node "a"]))); reflexivity.
Defined.

(** ** The document a run writes *)

Lemma loaded_dict_inv d :
  loaded (VDict d) →
  NoDup (dict_keys d) ∧ Forall (fun kv => loaded (snd kv)) d.
Proof. intros H. by inversion H. Qed.

Lemma loaded_dict_get k v d :
  loaded (VDict d) → dict_get k d = Some v → loaded v.
Proof.
  intros [_ Hall]%loaded_dict_inv Hget%dict_get_elem_of.
  rewrite Forall_forall in Hall. apply (Hall _ Hget).
Qed.

Lemma loaded_dict_set k v d :
  loaded (VDict d) → loaded v → loaded (VDict (dict_set k v d)).
Proof.
  intros [Hnd Hall]%loaded_dict_inv Hv. constructor.
  - by apply dict_set_NoDup.
  - by apply dict_set_Forall.
Qed.

(** The merge keeps documents well formed. *)
Lemma tree_insert_items_loaded section path items : ∀ dest dest',
  loaded (VDict dest) →
  Forall (fun kv => loaded (snd kv)) items →
  tree_insert_items dest section path items = Ok dest' →
  loaded (VDict dest').
Proof.
  induction items as [|[key item] rest IH]; intros dest dest' Hdest Hitems;
    simpl.
  - by intros [= <-].
  - apply Forall_cons in Hitems as [Hitem Hrest]. simpl in Hitem.
    destruct (dict_get section dest) as [v|] eqn:Hget; [|done].
    destruct v; try done; simpl.
    + by destruct (is_substring key s).
    + by destruct (existsb _ items).
    + destruct (dict_mem key entries); [done|].
      apply IH; [|done]. apply loaded_dict_set; [done|].
      apply loaded_dict_set; [|done]. by eapply loaded_dict_get.
Qed.

Lemma tree_merge_section_loaded dest src section path dest' :
  loaded (VDict dest) → loaded (VDict src) →
  tree_merge_section dest src section path = Ok dest' →
  loaded (VDict dest').
Proof.
  intros Hdest Hsrc. unfold tree_merge_section.
  destruct (dict_get section src) as [v|] eqn:Hget; [|by intros [= <-]].
  destruct v; try done.
  apply tree_insert_items_loaded.
  - unfold dict_setdefault. destruct (dict_mem section dest); [done|].
    apply loaded_dict_set; [done|]. constructor; constructor.
  - pose proof (loaded_dict_get _ _ _ Hsrc Hget) as H.
    by apply loaded_dict_inv in H as [_ H].
Qed.

Lemma tree_merge_sections_loaded data fragment sections : ∀ merged merged',
  loaded (VDict merged) → loaded (VDict data) →
  tree_merge_sections merged data fragment sections = Ok merged' →
  loaded (VDict merged').
Proof.
  induction sections as [|s rest IH]; intros merged merged' Hm Hd; simpl.
  - by intros [= <-].
  - destruct (tree_merge_section merged data s fragment) as [m1|e] eqn:E;
      [|done].
    apply IH; [|done].
    apply (tree_merge_section_loaded merged data s fragment m1 Hm Hd E).
Qed.

Lemma tree_merge_fragments_loaded fs fragment_paths : ∀ merged merged',
  loaded (VDict merged) →
  tree_merge_fragments fs merged fragment_paths = Ok merged' →
  loaded (VDict merged').
Proof.
  induction fragment_paths as [|p rest IH]; intros merged merged' Hm;
    cbn [tree_merge_fragments].
  - by intros [= <-].
  - destruct (_load_yaml fs p) as [data|e] eqn:Hload; [|done].
    destruct (tree_merge_sections merged data p SECTIONS) as [m1|e] eqn:E;
      [|done].
    apply IH.
    apply (tree_merge_sections_loaded data p SECTIONS merged m1 Hm); [|done].
    by eapply load_yaml_loaded.
Qed.

(** A successful run, in closed form, with its output read back. *)
Lemma merge_templates_succeeded fs base_path fragment_paths out_path :
  outcome (merge_templates fs base_path fragment_paths out_path) = Ok tt →
  ∃ base merged,
    _load_yaml fs base_path = Ok base ∧
    tree_merge_fragments fs base fragment_paths = Ok merged ∧
    loaded (VDict merged) ∧
    merge_templates fs base_path fragment_paths out_path
    = succeeded merged fs out_path ∧
    _load_yaml (files (succeeded merged fs out_path)) out_path = Ok merged.
Proof.
  rewrite merge_templates_tree.
  destruct (_load_yaml fs base_path) as [base|e] eqn:Hbase; [|done].
  destruct (tree_merge_fragments fs base fragment_paths) as [merged|e] eqn:E;
    [|done].
  intros _. exists base, merged.
  assert (loaded (VDict merged)) as Hl.
  { eapply tree_merge_fragments_loaded; [|done]. by eapply load_yaml_loaded. }
  repeat split; try done. by apply load_yaml_dump.
Qed.

(** X5.  The file a successful run writes loads to the very document the
    run merged: same keys in the same order at every depth, same values,
    same tags.  The merged document itself is well formed, no key twice in
    any dictionary. *)
Theorem output_loads_to_merged fs base_path fragment_paths out_path :
  outcome (merge_templates fs base_path fragment_paths out_path) = Ok tt →
  ∃ merged,
    dumped (merge_templates fs base_path fragment_paths out_path)
    = Some (VDict merged) ∧
    loaded (VDict merged) ∧
    _load_yaml (files (merge_templates fs base_path fragment_paths out_path))
      out_path
    = Ok merged.
Proof.
  intros H.
  destruct (merge_templates_succeeded _ _ _ _ H)
    as (base & merged & _ & _ & Hl & -> & Hagain).
  by exists merged.
Qed.

Lemma output_loads_to_merged_witness :
  ∃ merged,
    dumped (merge_templates sample_fs "base.yaml" ["f1.yaml"; "f2.yaml"]
              "out.yaml")
    = Some (VDict merged) ∧
    loaded (VDict merged) ∧
    _load_yaml
      (files (merge_templates sample_fs "base.yaml" ["f1.yaml"; "f2.yaml"]
                "out.yaml"))
      "out.yaml"
    = Ok merged.
Proof.
  apply (output_loads_to_merged sample_fs "base.yaml" ["f1.yaml"; "f2.yaml"]
           "out.yaml").
  reflexivity.
Defined.

(** Writing one file does not change what the other files load to. *)
Lemma load_yaml_other_file fs path path' stream :
  path ≠ path' →
  _load_yaml (dict_set path stream fs) path' = _load_yaml fs path'.
Proof.
  intros Hne. unfold _load_yaml. by rewrite dict_get_set_ne.
Qed.

Lemma load_all_other_file fs path stream paths :
  path ∉ paths →
  load_all (dict_set path stream fs) paths = load_all fs paths.
Proof.
  induction paths as [|p rest IH]; simpl; [done|].
  intros [Hp Hrest]%not_elem_of_cons.
  by rewrite load_yaml_other_file, IH.
Qed.

Lemma tree_merge_fragments_other_file fs path stream paths : ∀ merged,
  path ∉ paths →
  tree_merge_fragments (dict_set path stream fs) merged paths
  = tree_merge_fragments fs merged paths.
Proof.
  induction paths as [|p rest IH]; intros merged;
    cbn [tree_merge_fragments]; [done|].
  intros [Hp Hrest]%not_elem_of_cons.
  rewrite load_yaml_other_file by done.
  destruct (_load_yaml fs p) as [data|e]; [|done].
  destruct (tree_merge_sections merged data p SECTIONS); [|done].
  by apply IH.
Qed.

(** X6.  Merging in two runs is merging in one: when a first run merges
    the fragments [pre] into a file and a second run takes that file as its
    base for the fragments [post], the second run ends as one run on
    [pre ++ post] does and dumps the same document, provided the
    intermediate file is not itself one of the fragments [post]. *)
Theorem merge_in_two_runs fs base_path pre post mid_path out_path :
  outcome (merge_templates fs base_path pre mid_path) = Ok tt →
  mid_path ∉ post →
  outcome (merge_templates (files (merge_templates fs base_path pre mid_path))
             mid_path post out_path)
  = outcome (merge_templates fs base_path (pre ++ post) out_path) ∧
  dumped (merge_templates (files (merge_templates fs base_path pre mid_path))
            mid_path post out_path)
  = dumped (merge_templates fs base_path (pre ++ post) out_path).
Proof.
  intros H Hmid.
  destruct (merge_templates_succeeded _ _ _ _ H)
    as (base & merged1 & Hbase & Hm1 & _ & -> & Hagain).
  rewrite !merge_templates_tree, Hagain, Hbase.
  rewrite tree_merge_fragments_app, Hm1.
  cbn [files succeeded].
  rewrite tree_merge_fragments_other_file by done.
  by destruct (tree_merge_fragments fs merged1 post).
Qed.

Lemma merge_in_two_runs_witness :
  outcome (merge_templates
             (files (merge_templates sample_fs "base.yaml" ["f1.yaml"]
                       "mid.yaml"))
             "mid.yaml" ["f2.yaml"; "f3.yaml"] "out.yaml")
  = outcome (merge_templates sample_fs "base.yaml"
               (["f1.yaml"] ++ ["f2.yaml"; "f3.yaml"]) "out.yaml") ∧
  dumped (merge_templates
            (files (merge_templates sample_fs "base.yaml" ["f1.yaml"]
                      "mid.yaml"))
            "mid.yaml" ["f2.yaml"; "f3.yaml"] "out.yaml")
  = dumped (merge_templates sample_fs "base.yaml"
              (["f1.yaml"] ++ ["f2.yaml"; "f3.yaml"]) "out.yaml").
Proof.
  apply (merge_in_two_runs sample_fs "base.yaml" ["f1.yaml"]
           ["f2.yaml"; "f3.yaml"] "mid.yaml" "out.yaml").
  - reflexivity.
  - apply (bool_decide_unpack _). by vm_compute.
Defined.

(** ** When a run succeeds, and how it fails *)

Lemma pairwise_disjoint_of_NoDup ls :
  NoDup (concat ls) → pairwise_disjoint ls = true.
Proof.
  induction ls as [|l ls IH]; simpl; [done|].
  intros (Hl & Hd & Hls)%NoDup_app. apply andb_true_iff. split; [|auto].
  apply forallb_forall. intros l' Hl'%list_elem_of_In.
  apply disjoint_names_spec. intros k Hk Hk'. apply (Hd k Hk).
  apply elem_of_concat. eauto.
Qed.

Lemma first_duplicate_NoDup d items :
  NoDup (dict_keys d) → first_duplicate d items = None →
  NoDup (dict_keys (d ++ items)).
Proof.
  intros Hd [Hi Hdisj]%first_duplicate_None.
  rewrite dict_keys_app. apply NoDup_app. split; [done|]. split; [|done].
  intros k Hk Hk'. by apply (Hdisj k).
Qed.

(** X7.  The conditions of a successful merge are necessary: when a run
    succeeds, the base and every fragment loaded, every section of every
    fragment is a mapping or is absent, and no item name is defined twice in
    a section, neither by two documents nor within one. *)
Theorem success_needs_disjoint fs base_path fragment_paths out_path :
  outcome (merge_templates fs base_path fragment_paths out_path) = Ok tt →
  ∃ base docs,
    _load_yaml fs base_path = Ok base ∧
    load_all fs fragment_paths = Ok docs ∧
    forallb valid_sections docs = true ∧
    disjoint_sources (base :: docs) = true ∧
    ∀ s, s ∈ SECTIONS → NoDup (dict_keys (all_items (base :: docs) s)).
Proof.
  intros H.
  destruct (merge_templates_succeeded _ _ _ _ H)
    as (base & merged & Hbase & Hm & _ & _ & _).
  destruct (tree_merge_fragments_Ok _ _ _ _ Hm)
    as (docs & Hdocs & Hvalid & Hsec & _).
  exists base, docs. split; [done|]. split; [done|].
  assert (∀ s, s ∈ SECTIONS → NoDup (dict_keys (all_items (base :: docs) s)))
    as Hnd.
  { intros s Hs. rewrite all_items_cons.
    apply first_duplicate_NoDup; [|by apply Hsec].
    apply loaded_section_NoDup. by eapply load_yaml_loaded. }
  split.
  { apply forallb_forall. intros doc Hdoc%list_elem_of_In.
    apply valid_sections_spec. rewrite Forall_forall in Hvalid. auto. }
  split; [|done].
  apply disjoint_sources_spec. intros s Hs.
  apply pairwise_disjoint_of_NoDup. rewrite <- dict_keys_all_items. auto.
Qed.

Lemma success_needs_disjoint_witness :
  ∃ base docs,
    _load_yaml sample_fs "base.yaml" = Ok base ∧
    load_all sample_fs ["f1.yaml"; "f2.yaml"] = Ok docs ∧
    forallb valid_sections docs = true ∧
    disjoint_sources (base :: docs) = true ∧
    ∀ s, s ∈ SECTIONS → NoDup (dict_keys (all_items (base :: docs) s)).
Proof.
  apply (success_needs_disjoint sample_fs "base.yaml" ["f1.yaml"; "f2.yaml"]
           "out.yaml").
  reflexivity.
Defined.

(** The first step at which the loops fail. *)
Lemma tree_merge_fragments_Err fs fragment_paths : ∀ merged e,
  tree_merge_fragments fs merged fragment_paths = Err e →
  ∃ pre p post merged1,
    fragment_paths = pre ++ p :: post ∧
    tree_merge_fragments fs merged pre = Ok merged1 ∧
    (_load_yaml fs p = Err e ∨
     ∃ doc, _load_yaml fs p = Ok doc ∧
            tree_merge_sections merged1 doc p SECTIONS = Err e).
Proof.
  induction fragment_paths as [|p rest IH]; intros merged e;
    cbn [tree_merge_fragments]; [done|].
  destruct (_load_yaml fs p) as [doc|e'] eqn:Hload.
  - destruct (tree_merge_sections merged doc p SECTIONS) as [m1|e'] eqn:E.
    + intros H. destruct (IH _ _ H) as (pre & p' & post & m2 & -> & Hpre & Hp).
      exists (p :: pre), p', post, m2. split; [done|]. split; [|done].
      cbn [tree_merge_fragments]. by rewrite Hload, E.
    + intros [= ->]. exists [], p, rest, merged. split; [done|].
      split; [done|]. right. by exists doc.
  - intros [= ->]. exists [], p, rest, merged. split; [done|].
    split; [done|]. by left.
Qed.

Lemma tree_merge_sections_Err data fragment sections : ∀ merged e,
  tree_merge_sections merged data fragment sections = Err e →
  ∃ sections1 s sections2 merged1,
    sections = sections1 ++ s :: sections2 ∧
    tree_merge_sections merged data fragment sections1 = Ok merged1 ∧
    tree_merge_section merged1 data s fragment = Err e.
Proof.
  induction sections as [|s rest IH]; intros merged e; simpl; [done|].
  destruct (tree_merge_section merged data s fragment) as [m1|e'] eqn:E.
  - intros H. destruct (IH _ _ H) as (s1 & s' & s2 & m2 & -> & Hs1 & Hs').
    exists (s :: s1), s', s2, m2. split; [done|]. split; [|done].
    simpl. by rewrite E.
  - intros [= ->]. by exists [], s, rest, merged.
Qed.

Lemma first_duplicate_found d items k :
  first_duplicate d items = Some k →
  k ∈ dict_keys items ∧ (NoDup (dict_keys items) → k ∈ dict_keys d).
Proof.
  revert d. induction items as [|[k' v] rest IH]; intros d; simpl; [done|].
  destruct (dict_mem k' d) eqn:Hmem.
  - intros [= ->]. split; [left|]. intros _. by apply dict_mem_true.
  - intros H. destruct (IH _ H) as [Hk Hd]. split; [by right|].
    intros [Hk' Hnd]%NoDup_cons. specialize (Hd Hnd).
    apply dict_mem_false in Hmem. rewrite dict_keys_set_new in Hd by done.
    apply elem_of_app in Hd as [Hd| ->%list_elem_of_singleton]; done.
Qed.

Lemma load_all_elem_inv fs paths docs doc :
  load_all fs paths = Ok docs → doc ∈ docs →
  ∃ p, p ∈ paths ∧ _load_yaml fs p = Ok doc.
Proof.
  revert docs. induction paths as [|q paths IH]; intros docs; simpl.
  - by intros [= <-] ?%elem_of_nil.
  - destruct (_load_yaml fs q) as [d|e] eqn:Hq; [|done].
    destruct (load_all fs paths) as [ds|e]; [|done].
    intros [= <-] [->|Hdoc]%elem_of_cons.
    + exists q. split; [left|done].
    + destruct (IH ds eq_refl Hdoc) as (p & Hp & Hload).
      exists p. split; [by right|done].
Qed.

(** X8.  When the base is loaded with each of its top-level mappings an
    object of its own, which nothing else of the base refers to
    ([store_wf]), the fragments load and every section of the base and of
    the fragments is a mapping, the only way a run fails is a genuine
    collision: the
    exception is a [DuplicateKeyError], it names one of the four sections,
    a fragment of the list and an item name of that fragment in that
    section, and the base or a fragment earlier in the list defines that
    name in that section.  No other exception is possible. *)
Theorem valid_inputs_fail_on_collisions_only fs base h fragment_paths
    out_path docs e :
  store_wf h base →
  load_all fs fragment_paths = Ok docs →
  forallb valid_sections (view h base :: docs) = true →
  outcome (merge_loaded fs base h fragment_paths out_path) = Err e →
  ∃ s k pre p post doc,
    e = DuplicateKeyError s k p ∧
    s ∈ SECTIONS ∧
    fragment_paths = pre ++ p :: post ∧
    _load_yaml fs p = Ok doc ∧
    k ∈ item_names doc s ∧
    defined_earlier fs (view h base) pre s k.
Proof.
  intros Hwf Hdocs Hvalid. rewrite merge_loaded_tree by done.
  destruct (tree_merge_fragments fs (view h base) fragment_paths)
    as [m|e'] eqn:E; [done|].
  intros [= ->].
  destruct (tree_merge_fragments_Err _ _ _ _ E)
    as (pre & p & post & merged1 & -> & Hpre & Hp).
  destruct (load_all_app _ _ _ _ Hdocs) as (docs1 & docs2 & -> & Hd1 & Hd2).
  simpl in Hd2. destruct (_load_yaml fs p) as [doc|e'] eqn:Hload; [|done].
  destruct Hp as [Hp|(doc' & [= <-] & Hsections)]; [done|].
  destruct (load_all fs post) as [docs3|e']; [|done]. injection Hd2 as <-.
  rewrite forallb_forall in Hvalid.
  assert (∀ d, d ∈ view h base :: docs1 ++ doc :: docs3 →
               ∀ s, s ∈ SECTIONS → section_valid d s) as Hvalid'.
  { intros d Hd. apply valid_sections_spec, Hvalid. by apply list_elem_of_In. }
  destruct (tree_merge_fragments_Ok _ _ _ _ Hpre)
    as (docs1' & Hd1' & _ & Hsec & _).
  rewrite Hd1 in Hd1'. injection Hd1' as <-.
  destruct (tree_merge_sections_Err _ _ _ _ _ Hsections)
    as (sections1 & s & sections2 & merged2 & Hsplit & Hs1 & Hfail).
  pose proof NoDup_SECTIONS as Hnd. rewrite Hsplit in Hnd.
  apply NoDup_app in Hnd as (Hnd1 & Hnot & _).
  assert (s ∈ SECTIONS) as Hs.
  { rewrite Hsplit. apply elem_of_app. right. left. }
  destruct (tree_merge_sections_Ok _ _ _ _ _ Hnd1 Hs1) as [_ Hother].
  assert (dict_get s merged2 = dict_get s merged1) as Hget.
  { apply Hother. intros Hin. apply (Hnot s Hin). left. }
  destruct (Hsec s Hs) as (_ & Hitems & Hval).
  assert (section_valid merged2 s) as Hv2.
  { unfold section_valid. rewrite Hget. apply Hval, Hvalid'; [left|done]. }
  assert (section_valid doc s) as Hvdoc.
  { apply Hvalid'; [|done]. right. apply elem_of_app. right. left. }
  unfold section_valid in Hvdoc.
  destruct (dict_get s doc) as [v|] eqn:Hdoc.
  2: { unfold tree_merge_section in Hfail. by rewrite Hdoc in Hfail. }
  destruct v; try done.
  rewrite (tree_merge_section_valid _ _ _ _ _ Hv2 Hdoc) in Hfail.
  rewrite (section_items_ne merged1 merged2 s Hget), Hitems in Hfail.
  destruct (first_duplicate _ entries) as [k|] eqn:Hfd; [|done].
  injection Hfail as <-.
  destruct (first_duplicate_found _ _ _ Hfd) as [Hk Hearlier].
  pose proof (loaded_section_NoDup doc s (load_yaml_loaded _ _ _ Hload))
    as Hnodup.
  unfold item_names in Hnodup. rewrite (section_items_dict _ _ _ Hdoc) in *.
  specialize (Hearlier Hnodup).
  exists s, k, pre, p, post, doc.
  split; [done|]. split; [done|]. split; [done|]. split; [done|].
  split; [unfold item_names; by rewrite (section_items_dict _ _ _ Hdoc)|].
  rewrite <- all_items_cons in Hearlier.
  apply elem_of_all_items_keys in Hearlier as (d & [->|Hd]%elem_of_cons & Hkd).
  - by left.
  - right. destruct (load_all_elem_inv _ _ _ _ Hd1 Hd) as (p' & Hp' & Hl').
    by exists p', d.
Qed.

Lemma valid_inputs_fail_on_collisions_only_witness :
  ∃ s k pre p post doc,
    DuplicateKeyError "Resources" "A" "later.yaml"
    = DuplicateKeyError s k p ∧
    s ∈ SECTIONS ∧
    ["f1.yaml"; "later.yaml"; "dup1.yaml"] = pre ++ p :: post ∧
    _load_yaml collision_fs p = Ok doc ∧
    k ∈ item_names doc s ∧
    defined_earlier collision_fs (view sample_base_store sample_base_root)
      pre s k.
Proof.
  apply (valid_inputs_fail_on_collisions_only collision_fs sample_base_root
           sample_base_store ["f1.yaml"; "later.yaml"; "dup1.yaml"] "out.yaml"
           [sample_doc1; dup_later_doc; dup_doc]).
  - apply sample_base_root_wf.
  - reflexivity.
  - reflexivity.
  - reflexivity.
Defined.

(** X9.  The first failure is final: when the run on the fragments [pre]
    fails, the run on [pre] followed by any further fragments fails with the
    same exception; the further fragments are not even opened, so it does
    not matter whether they exist. *)
Theorem failure_is_final fs base_path pre post out_path e :
  outcome (merge_templates fs base_path pre out_path) = Err e →
  merge_templates fs base_path (pre ++ post) out_path = failed e fs.
Proof.
  rewrite !merge_templates_tree.
  destruct (_load_yaml fs base_path) as [base|e']; [|by intros [= ->]].
  rewrite tree_merge_fragments_app.
  destruct (tree_merge_fragments fs base pre) as [m|e']; [done|].
  by intros [= ->].
Qed.

Lemma failure_is_final_witness :
  merge_templates collision_fs "base.yaml" (["dup1.yaml"] ++ ["missing.yaml"])
    "out.yaml"
  = failed (DuplicateKeyError "Resources" "A" "dup1.yaml") collision_fs.
Proof.
  apply (failure_is_final collision_fs "base.yaml" ["dup1.yaml"]
           ["missing.yaml"] "out.yaml").
  reflexivity.
Defined.

(** ** The order of the fragments *)















(** ** What [_merge_section] leaves in the store *)

Lemma store_get_lookup (h : store) l :
  l < length h → h !! l = Some (store_get h l).
Proof.
  intros Hl. destruct (lookup_lt_is_Some_2 h l Hl) as [d E].
  unfold store_get, pydict, loc. by rewrite E.
Qed.

(** The loop over the items, stopped by a name already present: the items
    before it are in the dictionary. *)
Lemma insert_items_stops dest section path l X v after : ∀ before h,
  dict_get section dest = Some (DictRef l) →
  l < length h →
  first_duplicate (store_get h l) before = None →
  X ∈ dict_keys (store_get h l ++ before) →
  insert_items dest section path (before ++ (X, v) :: after) h
  = (Err (DuplicateKeyError section X path),
     <[l := store_get h l ++ before]> h).
Proof.
  induction before as [|[k x] before IH]; intros h Hget Hl Hfd HX; simpl.
  - rewrite Hget. rewrite app_nil_r in *.
    apply dict_mem_true in HX. rewrite HX.
    by rewrite list_insert_id by (by apply store_get_lookup).
  - rewrite Hget. simpl in Hfd.
    destruct (dict_mem k (store_get h l)) eqn:Hmem; [done|].
    apply dict_mem_false in Hmem.
    rewrite (dict_set_new k x _ Hmem) in Hfd.
    rewrite (dict_set_new k x _ Hmem).
    rewrite IH; rewrite ?length_insert, ?store_get_insert_eq; try done.
    + by rewrite list_insert_insert_eq, <- app_assoc.
    + by rewrite <- app_assoc.
Qed.

(** X11.  A duplicate stops [_merge_section] half way: the items of the
    fragment's section that come before the duplicate have been stored in
    the destination section, after the items it had, and they stay there
    when the [ValueError] is raised; the duplicate and the items after it
    are not stored. *)
Theorem merge_section_stops_at_duplicate dest src section path h l
    before X v after :
  dict_get section dest = Some (DictRef l) →
  l < length h →
  dict_get section src = Some (VDict (before ++ (X, v) :: after)) →
  first_duplicate (store_get h l) before = None →
  X ∈ dict_keys (store_get h l ++ before) →
  _merge_section dest src section path h
  = (Err (DuplicateKeyError section X path),
     <[l := store_get h l ++ before]> h).
Proof.
  intros Hdest Hl Hsrc Hfd HX. unfold _merge_section. rewrite Hsrc.
  unfold bind, setdefault_dict, dict_mem. rewrite Hdest.
  by rewrite (insert_items_stops dest section path l X v after before h).
Qed.

Lemma merge_section_stops_at_duplicate_witness :
  _merge_section
    [("Description", Plain (VStr "sample")); ("Resources", DictRef 0)]
    dup_later_doc "Resources" "later.yaml"
    [[("A", VDict [("Type", VStr "X")])]]
  = (Err (DuplicateKeyError "Resources" "A" "later.yaml"),
     <[0 := store_get [[("A", VDict [("Type", VStr "X")])]] 0
            ++ [("Ck", VStr "c")]]>
       [[("A", VDict [("Type", VStr "X")])]]).
Proof.
  apply (merge_section_stops_at_duplicate
           [("Description", Plain (VStr "sample")); ("Resources", DictRef 0)]
           dup_later_doc "Resources" "later.yaml"
           [[("A", VDict [("Type", VStr "X")])]] 0
           [("Ck", VStr "c")] "A" (VStr "a") [("Bk", VStr "b")]).
  - reflexivity.
  - simpl. lia.
  - reflexivity.
  - reflexivity.
  - apply (bool_decide_unpack _). by vm_compute.
Defined.

(** ** What the merge never touches *)

(** The loop over the items writes to the object of the section only. *)
Lemma insert_items_frame dest section path items l : ∀ h,
  dict_get section dest ≠ Some (DictRef l) →
  store_get (snd (insert_items dest section path items h)) l = store_get h l ∧
  length (snd (insert_items dest section path items h)) = length h.
Proof.
  induction items as [|[key item] rest IH]; intros h Hne; simpl; [done|].
  destruct (dict_get section dest) as [[l'|v]|] eqn:Hget; simpl; [| |done].
  - destruct (dict_mem key (store_get h l')); simpl; [done|].
    destruct (IH (<[l' := dict_set key item (store_get h l')]> h)) as [-> ->];
      [done|].
    rewrite length_insert. split; [|done].
    apply store_get_insert_ne. intros ->. by apply Hne.
  - by destruct (py_contains key v) as [[]|].
Qed.

(** [_merge_section] leaves alone every object that is not the one of its
    section; the keys of the root dictionary keep their entries, and a new
    key refers to a new object. *)
Lemma merge_section_frame dest src section path h l :
  l < length h →
  dict_get section dest ≠ Some (DictRef l) →
  store_get (snd (_merge_section dest src section path h)) l = store_get h l ∧
  (length h ≤ length (snd (_merge_section dest src section path h)))%nat ∧
  ∀ dest', fst (_merge_section dest src section path h) = Ok dest' →
           ∀ k, dict_get k dest' ≠ Some (DictRef l) ∨
                dict_get k dest' = dict_get k dest.
Proof.
  intros Hl Hne. unfold _merge_section.
  destruct (dict_get section src) as [[]|]; simpl;
    try (split; [done|]; split; [done|]; by intros dest' [= <-]; right).
  unfold bind, setdefault_dict.
  destruct (dict_mem section dest) eqn:Hmem.
  - destruct (insert_items_frame dest section path entries l h Hne)
      as [Hget Hlen].
    destruct (insert_items dest section path entries h) as [[[]|e] h'];
      simpl in *; (split; [done|]; split; [lia|]); [|done].
    intros dest' [= <-]. by right.
  - destruct (insert_items_frame
                (dict_set section (DictRef (length h)) dest)
                section path entries l (h ++ [[]])) as [Hget Hlen].
    { rewrite dict_get_set_eq. intros [= ?]. lia. }
    rewrite length_app in Hlen. simpl in Hlen.
    rewrite store_get_app_l in Hget by done.
    destruct (insert_items _ section path entries (h ++ [[]]))
      as [[[]|e] h']; simpl in *; (split; [done|]; split; [lia|]); [|done].
    intros dest' [= <-] k.
    destruct (String.eqb_spec section k) as [<-|Hk].
    + left. rewrite dict_get_set_eq. intros [= ?]. lia.
    + right. by apply dict_get_set_ne.
Qed.

Lemma merge_sections_frame data fragment sections l : ∀ merged h,
  l < length h →
  (∀ s, s ∈ sections → dict_get s merged ≠ Some (DictRef l)) →
  store_get (snd (merge_sections merged data fragment sections h)) l
  = store_get h l ∧
  (length h ≤ length (snd (merge_sections merged data fragment sections h)))%nat
  ∧
  ∀ merged',
    fst (merge_sections merged data fragment sections h) = Ok merged' →
    ∀ k, dict_get k merged' ≠ Some (DictRef l) ∨
         dict_get k merged' = dict_get k merged.
Proof.
  induction sections as [|s rest IH]; intros merged h Hl Hne; simpl.
  - split; [done|]. split; [done|]. intros m [= <-] k. by right.
  - unfold bind.
    destruct (merge_section_frame merged data s fragment h l Hl)
      as (Hget & Hlen & Hkeys); [apply Hne; left|].
    destruct (_merge_section merged data s fragment h) as [[m1|e] h1];
      simpl in *; [|by split].
    specialize (Hkeys m1 eq_refl).
    destruct (IH m1 h1) as (Hget' & Hlen' & Hkeys'); [lia| |].
    { intros s' Hs'. destruct (Hkeys s') as [H|H]; [done|].
      rewrite H. apply Hne. by right. }
    split; [by rewrite Hget'|]. split; [lia|].
    intros m' Hm' k. destruct (Hkeys' m' Hm' k) as [H|H]; [by left|].
    rewrite H. apply Hkeys.
Qed.

Lemma merge_fragments_frame fs fragment_paths l : ∀ merged h,
  l < length h →
  (∀ s, s ∈ SECTIONS → dict_get s merged ≠ Some (DictRef l)) →
  store_get (snd (merge_fragments fs merged fragment_paths h)) l
  = store_get h l.
Proof.
  induction fragment_paths as [|p rest IH]; intros merged h Hl Hne;
    cbn [merge_fragments]; [done|].
  destruct (_load_yaml fs p) as [data|e]; [|done].
  unfold bind.
  destruct (merge_sections_frame data p SECTIONS l merged h Hl Hne)
    as (Hget & Hlen & Hkeys).
  destruct (merge_sections merged data p SECTIONS h) as [[m1|e] h1];
    cbn [fst snd] in *; [|done].
  rewrite IH; [done|lia|].
  intros s Hs. destruct (Hkeys m1 eq_refl s) as [H|H]; [done|].
  rewrite H. by apply Hne.
Qed.

(** X12.  The merge never changes what the base holds under a key whose
    value is not the very object that a section name holds (and, being a
    tree, has no such object inside): whatever the fragments are and
    however the run ends, the base read in the final store has there what
    it had when loaded, also when that value is a dictionary, which [base]
    and [merged] share. *)
Theorem base_other_keys_untouched fs base h fragment_paths r h2 k :
  (∀ l, dict_get k base = Some (DictRef l) →
        l < length h ∧
        ∀ s, s ∈ SECTIONS → dict_get s base ≠ Some (DictRef l)) →
  merge_fragments fs base fragment_paths h = (r, h2) →
  dict_get k (view h2 base) = dict_get k (view h base).
Proof.
  intros Hfree Hrun.
  rewrite !dict_get_view.
  destruct (dict_get k base) as [[l|v]|] eqn:Hget; [|done|done].
  simpl. f_equal. f_equal.
  destruct (Hfree l eq_refl) as [Hl Hne].
  pose proof (merge_fragments_frame fs fragment_paths l base h Hl Hne)
    as Hframe.
  by rewrite Hrun in Hframe.
Qed.

Lemma base_other_keys_untouched_witness :
  dict_get "Metadata"
    (view [[("A", VDict [("Type", VStr "X")]);
            ("Bk", VDict [("Type", VStr "Y")])];
           [("Owner", VStr "team")]]
          [("Metadata", DictRef 1); ("Resources", DictRef 0)])
  = dict_get "Metadata"
      (view [[("A", VDict [("Type", VStr "X")])]; [("Owner", VStr "team")]]
            [("Metadata", DictRef 1); ("Resources", DictRef 0)]).
Proof.
  apply (base_other_keys_untouched collision_fs
           [("Metadata", DictRef 1); ("Resources", DictRef 0)]
           [[("A", VDict [("Type", VStr "X")])]; [("Owner", VStr "team")]]
           ["f1.yaml"; "dup1.yaml"]
           (Err (DuplicateKeyError "Resources" "A" "dup1.yaml"))
           [[("A", VDict [("Type", VStr "X")]);
             ("Bk", VDict [("Type", VStr "Y")])];
            [("Owner", VStr "team")]]).
  - intros l [= <-]. split; [simpl; lia|].
    apply Forall_forall. repeat constructor; done.
  - reflexivity.
Defined.

(** ** The keys of the merged document *)

Lemma dict_mem_existsb {V} k (d : pydict V) :
  dict_mem k d = existsb (String.eqb k) (dict_keys d).
Proof.
  destruct (existsb (String.eqb k) (dict_keys d)) eqn:E.
  - apply existsb_exists in E as (k' & Hk'%list_elem_of_In & ->%String.eqb_eq).
    by apply dict_mem_true.
  - apply dict_mem_false. intros Hk. apply list_elem_of_In in Hk.
    assert (existsb (String.eqb k) (dict_keys d) = true); [|congruence].
    apply existsb_exists. exists k. split; [done|]. apply String.eqb_refl.
Qed.

Lemma tree_insert_items_keys section path items : ∀ dest dest',
  tree_insert_items dest section path items = Ok dest' →
  dict_keys dest' = dict_keys dest.
Proof.
  induction items as [|[key item] rest IH]; intros dest dest'; simpl.
  - by intros [= <-].
  - destruct (dict_get section dest) as [v|] eqn:Hget; [|done].
    destruct v; try done; simpl.
    + by destruct (is_substring key s).
    + by destruct (existsb _ items).
    + destruct (dict_mem key entries); [done|].
      intros H. rewrite (IH _ _ H). apply dict_keys_set_mem.
      by eapply dict_get_Some_keys.
Qed.

Lemma tree_merge_section_keys dest src section path dest' :
  tree_merge_section dest src section path = Ok dest' →
  dict_keys dest' = dict_keys dest ++ new_sections (dict_keys dest) src [section].
Proof.
  unfold tree_merge_section, new_sections. simpl.
  rewrite <- dict_mem_existsb. unfold dict_mem at 1.
  destruct (dict_get section src) as [v|] eqn:Hsrc; simpl.
  2: { intros [= <-]. by rewrite app_nil_r. }
  destruct v; try done.
  intros H. rewrite (tree_insert_items_keys _ _ _ _ _ H).
  unfold dict_setdefault. destruct (dict_mem section dest) eqn:Hmem; simpl.
  - by rewrite app_nil_r.
  - apply dict_keys_set_new. by apply dict_mem_false.
Qed.

Lemma new_sections_cons keys doc s rest :
  s ∉ rest →
  new_sections keys doc (s :: rest)
  = new_sections keys doc [s]
    ++ new_sections (keys ++ new_sections keys doc [s]) doc rest.
Proof.
  intros Hs. unfold new_sections. simpl.
  assert (∀ extra, (∀ k, k ∈ extra → k = s) →
            List.filter (fun s0 => dict_mem s0 doc
                                   && negb (existsb (String.eqb s0) keys)) rest
            = List.filter (fun s0 => dict_mem s0 doc
                                     && negb (existsb (String.eqb s0)
                                                (keys ++ extra))) rest) as H.
  { intros extra Hextra. apply filter_ext_in. intros s' Hs'%list_elem_of_In.
    f_equal. f_equal. rewrite existsb_app.
    destruct (existsb (String.eqb s') extra) eqn:E; [|by rewrite orb_false_r].
    apply existsb_exists in E as (k & Hk%list_elem_of_In & ->%String.eqb_eq).
    apply Hextra in Hk. by subst. }
  destruct (dict_mem s doc && negb (existsb (String.eqb s) keys)); simpl.
  - f_equal. apply H. by intros k ->%list_elem_of_singleton.
  - apply H. by intros k ?%elem_of_nil.
Qed.

Lemma tree_merge_sections_keys data fragment sections : ∀ merged merged',
  NoDup sections →
  tree_merge_sections merged data fragment sections = Ok merged' →
  dict_keys merged'
  = dict_keys merged ++ new_sections (dict_keys merged) data sections.
Proof.
  induction sections as [|s rest IH]; intros merged merged' Hnd;
    cbn [tree_merge_sections].
  - intros [= <-]. unfold new_sections. simpl. by rewrite app_nil_r.
  - apply NoDup_cons in Hnd as [Hs Hnd].
    destruct (tree_merge_section merged data s fragment) as [m1|e] eqn:E;
      [|done].
    intros H. rewrite (IH _ _ Hnd H), (tree_merge_section_keys _ _ _ _ _ E).
    by rewrite (new_sections_cons _ _ s rest Hs), app_assoc.
Qed.

Lemma tree_merge_fragments_keys fs fragment_paths : ∀ merged merged' docs,
  tree_merge_fragments fs merged fragment_paths = Ok merged' →
  load_all fs fragment_paths = Ok docs →
  dict_keys merged'
  = dict_keys merged ++ added_sections (dict_keys merged) docs.
Proof.
  induction fragment_paths as [|p rest IH]; intros merged merged' docs;
    cbn [tree_merge_fragments load_all].
  - intros [= <-] [= <-]. simpl. by rewrite app_nil_r.
  - destruct (_load_yaml fs p) as [data|e]; [|done].
    destruct (tree_merge_sections merged data p SECTIONS) as [m1|e] eqn:E;
      [|done].
    destruct (load_all fs rest) as [ds|e]; [|done].
    intros H [= <-]. rewrite (IH _ _ ds H eq_refl).
    rewrite (tree_merge_sections_keys _ _ _ _ _ NoDup_SECTIONS E).
    cbn [added_sections]. by rewrite app_assoc.
Qed.

(** X13.  The top-level keys of the merged document, in order: the keys
    of the base in the base's order, then the sections the base lacks, each
    at the place where a fragment first brings it (also when the fragment's
    section is empty), the sections of one fragment in the order
    Parameters, Conditions, Resources, Outputs.  No key of the base moves
    or disappears and no other key is added. *)
Theorem merged_keys_order fs base_path fragment_paths out_path base docs :
  _load_yaml fs base_path = Ok base →
  load_all fs fragment_paths = Ok docs →
  outcome (merge_templates fs base_path fragment_paths out_path) = Ok tt →
  ∃ merged,
    dumped (merge_templates fs base_path fragment_paths out_path)
    = Some (VDict merged) ∧
    dict_keys merged
    = dict_keys base ++ added_sections (dict_keys base) docs.
Proof.
  intros Hbase Hdocs H.
  destruct (merge_templates_succeeded _ _ _ _ H)
    as (base' & merged & Hbase' & Hm & _ & -> & _).
  rewrite Hbase in Hbase'. injection Hbase' as <-.
  exists merged. split; [done|]. by eapply tree_merge_fragments_keys.
Qed.

Lemma merged_keys_order_witness :
  ∃ merged,
    dumped (merge_templates sample_fs "base.yaml" ["f2.yaml"; "f1.yaml"]
              "out.yaml")
    = Some (VDict merged) ∧
    dict_keys merged
    = dict_keys sample_base_doc
      ++ added_sections (dict_keys sample_base_doc) [sample_doc2; sample_doc1].
Proof.
  apply (merged_keys_order sample_fs "base.yaml" ["f2.yaml"; "f1.yaml"]
           "out.yaml"); reflexivity.
Defined.

(** ** A base whose section is not a mapping *)

Lemma tree_merge_sections_absent data fragment sections merged :
  (∀ s, s ∈ sections → dict_get s data = None) →
  tree_merge_sections merged data fragment sections = Ok merged.
Proof.
  induction sections as [|s rest IH]; intros Habsent; simpl; [done|].
  unfold tree_merge_section. rewrite (Habsent s) by left.
  apply IH. intros s' Hs'. apply Habsent. by right.
Qed.

(** X14.  The sections of the base are not checked, and a section of the
    base that is not a mapping makes the merge raise as soon as a fragment
    brings an item to it: not the [ValueError] of a section of the wrong
    type, but whatever the [in] test and the assignment of the loop raise on
    that value, a [TypeError] in general, a [DuplicateKeyError] when the
    value is a string that contains the item name or a list that holds
    it. *)
Theorem base_section_not_mapping fs base_path p post out_path base doc
    sections1 s sections2 v k x rest :
  _load_yaml fs base_path = Ok base →
  dict_get s base = Some v →
  is_dict v = false →
  _load_yaml fs p = Ok doc →
  SECTIONS = sections1 ++ s :: sections2 →
  (∀ s', s' ∈ sections1 → dict_get s' doc = None) →
  dict_get s doc = Some (VDict ((k, x) :: rest)) →
  merge_templates fs base_path (p :: post) out_path
  = failed (plain_section_error s k p v) fs.
Proof.
  intros Hbase Hv Hdict Hdoc Hsplit Habsent Hitems.
  rewrite merge_templates_tree, Hbase.
  cbn [tree_merge_fragments]. rewrite Hdoc, Hsplit.
  rewrite tree_merge_sections_app, tree_merge_sections_absent by done.
  cbn [tree_merge_sections].
  unfold tree_merge_section, dict_setdefault, dict_mem, plain_section_error.
  rewrite Hitems, Hv. cbn [tree_insert_items]. rewrite Hv.
  destruct v; try done; simpl.
  - by destruct (is_substring k s0).
  - by destruct (existsb _ items).
Qed.

Lemma base_section_not_mapping_witness :
  merge_templates plain_base_fs "none.yaml" ("f1.yaml" :: []) "out.yaml"
  = failed (plain_section_error "Resources" "Bk" "f1.yaml" VNone)
      plain_base_fs.
Proof.
  apply (base_section_not_mapping plain_base_fs "none.yaml" "f1.yaml" []
           "out.yaml" [("Resources", VNone)] sample_doc1
           ["Parameters"; "Conditions"] "Resources" ["Outputs"] VNone
           "Bk" (VDict [("Type", VStr "Y")]) []); try reflexivity.
  intros s' Hs'.
  repeat (apply elem_of_cons in Hs' as [->|Hs']; [reflexivity|]).
  by apply elem_of_nil in Hs'.
Defined.

(** The two exceptions a string in the place of a section can give. *)
Example base_section_text :
  outcome (merge_templates plain_base_fs "text.yaml" ["f1.yaml"] "out.yaml")
  = Err (DuplicateKeyError "Resources" "Bk" "f1.yaml") ∧
  outcome (merge_templates plain_base_fs "none.yaml" ["f1.yaml"] "out.yaml")
  = Err TypeError.
Proof. split; reflexivity. Qed.
